(** * FlowRunner: step-by-step execution of flow-*.yaml

    A shallow embedding of [src/auto_k8s_pilot/flow_runner.py], of the
    endpoint of [api.py] that runs a flow, and of the pure parts of
    [observability/tracing.py] and [observability/logger.py].

    - YAML documents are values of [yaml] (what [yaml.safe_load] returns,
      restricted to null, booleans, integers, strings, sequences and
      mappings with string keys).
    - [config_dir] is the parsed content of the files of its [layers]
      directory, keyed by file name; [layers_path] is the path of that
      directory as [str] gives it. The directory exists, its files can be
      read, and it is a directory a Linux file system keeps: a file name
      has at most [NAME_MAX] bytes and a path fewer than [PATH_MAX]. It
      has no subdirectory whose name starts with flow-, and its path
      leaves room for the name behavior.yaml.
    - Python exceptions are values of [exn]; an [OSError] the operating
      system raised is kept with its [errno], which tells its class
      ([FileNotFoundError] for [ENOENT]). Fallible pure code lives in
      [result], the step loop in the state-and-error monad [M] over the
      external world the tasks act on and the number of [time.time()]
      calls made so far.
    - A task either returns or raises an [Exception], which is what the
      [except Exception] of the step loop catches; [KeyboardInterrupt],
      [SystemExit] and the like are not modelled.
    - Strings are [string]; one [ascii] stands for one character, and
      where the bytes of a file name count, for the character of that
      code point.
    - [time.time()] readings are rationals, one per call, with no
      assumption on their order. The arithmetic on them is exact: the
      binary64 rounding of the code is not modelled, so a duration can
      differ by one millisecond from the one the code computes; like the
      code's, it is non-negative when the second reading is not before
      the first, and grows with the second reading.
    - Logging ([enrich_context], [bind], [info], ...) has no effect on the
      values computed and is left out, except for the clock reading made
      while logging a completed step. *)

From stdpp Require Import gmap strings list fin_maps pretty.
From Stdlib Require Import QArith Qround Lqa.

Local Open Scope string_scope.
Local Open Scope list_scope.
Local Open Scope Z_scope.

(** ** YAML values and the Python operations applied to them *)

#[warnings="-register-all"]
Inductive yaml : Type :=
| YNull
| YBool (b : bool)
| YInt (z : Z)
| YStr (s : string)
| YSeq (items : list yaml)
| YMap (entries : list (string * yaml)).

(** [FileNotFoundError msg] is [FileNotFoundError(msg)], as the code raises
    it; [OSError errno] is what a system call raises. *)
Inductive exn : Type :=
| FileNotFoundError (msg : string)
| OSError (errno : Z)
| AttributeError
| TypeError
| KeyError (key : string).

Definition ENOENT : Z := 2.
Definition ENAMETOOLONG : Z := 36.

(** [isinstance(e, FileNotFoundError)]: an [OSError] with [errno] [ENOENT]
    is a [FileNotFoundError]. *)
Definition is_FileNotFoundError (e : exn) : bool :=
  match e with
  | FileNotFoundError _ => true
  | OSError errno => errno =? ENOENT
  | _ => false
  end.

Inductive result (A : Type) : Type :=
| Ok (a : A)
| Raise (e : exn).
Arguments Ok {A} a.
Arguments Raise {A} e.

#[global] Instance result_ret : MRet result := fun _ a => Ok a.
#[global] Instance result_bind : MBind result := fun _ _ f m =>
  match m with
  | Ok a => f a
  | Raise e => Raise e
  end.

(** [d.get(k)] on a parsed mapping (its keys are distinct). *)
Fixpoint dict_get (k : string) (entries : list (string * yaml)) : option yaml :=
  match entries with
  | [] => None
  | (k', v) :: rest => if decide (k' = k) then Some v else dict_get k rest
  end.

(** [v.get(k, default)]: only mappings have a [get] attribute. *)
Definition py_get (v : yaml) (k : string) (dflt : yaml) : result yaml :=
  match v with
  | YMap entries => Ok (default dflt (dict_get k entries))
  | _ => Raise AttributeError
  end.

(** [v[k]] for a string [k]. *)
Definition py_getitem (v : yaml) (k : string) : result yaml :=
  match v with
  | YMap entries =>
      match dict_get k entries with
      | Some x => Ok x
      | None => Raise (KeyError k)
      end
  | _ => Raise TypeError
  end.

(** [len(v)]. *)
Definition py_len (v : yaml) : result nat :=
  match v with
  | YStr s => Ok (String.length s)
  | YSeq items => Ok (length items)
  | YMap entries => Ok (length entries)
  | _ => Raise TypeError
  end.

(** The values [for x in v] binds [x] to: the items of a sequence, the keys
    of a mapping, the characters of a string. *)
Definition py_iter (v : yaml) : result (list yaml) :=
  match v with
  | YStr s => Ok ((λ c, YStr (String c EmptyString)) <$> String.list_ascii_of_string s)
  | YSeq items => Ok items
  | YMap entries => Ok ((λ kv, YStr kv.1) <$> entries)
  | _ => Raise TypeError
  end.

(** Truth value, as tested by [if not v]. *)
Definition truthy (v : yaml) : bool :=
  match v with
  | YNull => false
  | YBool b => b
  | YInt z => negb (z =? 0)
  | YStr s => negb (String.eqb s "")
  | YSeq items => negb (bool_decide (items = []))
  | YMap entries => negb (bool_decide (entries = []))
  end.

(** Values usable as dictionary keys. *)
Inductive scalar : Type :=
| SNull
| SBool (b : bool)
| SInt (z : Z)
| SStr (s : string).

(** [hash(v)]: lists and dicts are unhashable. *)
Definition as_hashable (v : yaml) : result scalar :=
  match v with
  | YNull => Ok SNull
  | YBool b => Ok (SBool b)
  | YInt z => Ok (SInt z)
  | YStr s => Ok (SStr s)
  | YSeq _ | YMap _ => Raise TypeError
  end.

(** [str(k)], as an f-string renders [{k}]. *)
Definition py_str (k : scalar) : string :=
  match k with
  | SNull => "None"
  | SBool true => "True"
  | SBool false => "False"
  | SInt z => pretty z
  | SStr s => s
  end.

(** [int(q)]: truncation toward zero. *)
Definition py_int (q : Q) : Z := Z.quot (Qnum q) (Zpos (Qden q)).

(** [int((now - start) * 1000)]. *)
Definition elapsed_ms (start now : Q) : Z :=
  py_int ((now - start) * (1000 # 1))%Q.

(** [needle in s] on strings. *)
Fixpoint contains (needle s : string) : bool :=
  if String.prefix needle s then true
  else match s with
       | EmptyString => false
       | String _ s' => contains needle s'
       end.

(** ** Paths *)

Definition nul : Ascii.ascii := Ascii.ascii_of_nat 0.
Definition slash : Ascii.ascii := Ascii.ascii_of_nat 47.

(** [c in s] for a character [c]. *)
Fixpoint has_char (c : Ascii.ascii) (s : string) : bool :=
  match s with
  | EmptyString => false
  | String c' s' => Ascii.eqb c' c || has_char c s'
  end.

(** The bytes of a character in UTF-8, for the code points an [ascii]
    has. *)
Definition utf8_size (c : Ascii.ascii) : nat :=
  if (Ascii.nat_of_ascii c <? 128)%nat then 1%nat else 2%nat.

(** [len(os.fsencode(s))] *)
Fixpoint fs_size (s : string) : nat :=
  match s with
  | EmptyString => 0%nat
  | String c s' => (utf8_size c + fs_size s')%nat
  end.

(** [s.split("/")]: the first piece and the pieces after it. *)
Fixpoint split_slash (s : string) : string * list string :=
  match s with
  | EmptyString => (EmptyString, [])
  | String c s' =>
      let '(piece, pieces) := split_slash s' in
      if Ascii.eqb c slash then (EmptyString, piece :: pieces)
      else (String c piece, pieces)
  end.

(** The components [layers / rel] adds to the path [layers]: pathlib drops
    the empty pieces and the pieces ["."]. *)
Definition path_parts (rel : string) : list string :=
  let '(piece, pieces) := split_slash rel in
  filter (λ x, x ≠ "" ∧ x ≠ ".") (piece :: pieces).

(** The limits of Linux: a file name has at most [NAME_MAX] bytes, a path
    with its final zero at most [PATH_MAX]. *)
Definition NAME_MAX : nat := 255.
Definition PATH_MAX : nat := 4096.

(** [len(os.fsencode(str(layers / rel)))] for the components of [rel]. *)
Definition path_size (layers_path : string) (parts : list string) : nat :=
  (fs_size layers_path + sum_list ((λ part, S (fs_size part)) <$> parts))%nat.

(** The system call on [layers / rel] fails with [ENAMETOOLONG]: the path
    is too long, or the name looked up in the directory [layers] is. *)
Definition too_long (layers_path rel : string) : bool :=
  let parts := path_parts rel in
  (PATH_MAX <=? path_size layers_path parts)%nat ||
  (NAME_MAX <? fs_size (default "" (head parts)))%nat.

(** What the directory [layers] can hold under a name that starts with
    flow-: a file of the directory itself, under a name the operating
    system accepts. *)
Definition key_ok (layers_path key : string) : bool :=
  negb (String.prefix "flow-" key) ||
  (negb (has_char nul key) && negb (has_char slash key) &&
   negb (too_long layers_path key)).

(** A directory [layers]: its path leaves room for behavior.yaml and its
    files have such names. *)
Definition dir_ok (layers_path : string) (files : gmap string yaml) : bool :=
  negb (too_long layers_path "behavior.yaml") &&
  forallb (key_ok layers_path) (map_to_list files).*1.

(** ** Results *)

Record StepResult : Type := {
  agent : yaml;
  task : yaml;
  output : string;
  duration_ms : Z
}.

Inductive meta_value : Type :=
| MStr (s : string)
| MBool (b : bool)
| MInt (z : Z).

Record RunResult : Type := {
  final_answer : string;
  steps : list StepResult;
  metadata : gmap string meta_value
}.

(** [r["task"] == name] for a string literal [name]. *)
Definition task_is (r : StepResult) (name : string) : bool :=
  match task r with
  | YStr s => String.eqb s name
  | _ => false
  end.

(** The loop of [_extract_final_answer], over [reversed(results)]. *)
Fixpoint scan_final_answer (rs : list StepResult) : option string :=
  match rs with
  | [] => None
  | r :: rs' =>
      if task_is r "incident_create_issue_if_needed" then Some (output r)
      else if task_is r "cluster_summary" then Some (output r)
      else scan_final_answer rs'
  end.

Definition _extract_final_answer (results : list StepResult) : string :=
  match scan_final_answer (rev results) with
  | Some o => o
  | None =>
      match last results with
      | Some r => output r
      | None => ""
      end
  end.

(** One iteration of the loop of [_extract_metadata]. *)
Definition metadata_step (metadata : gmap string meta_value) (r : StepResult)
  : gmap string meta_value :=
  let metadata :=
    if task_is r "cluster_summary"
    then <["cluster_summary" :=
             MStr (if truthy (YStr (output r))
                   then String.substring 0 500 (output r) else "")]> metadata
    else metadata in
  if task_is r "incident_create_issue_if_needed"
  then (if contains "Created issue" (output r)
        then <["incident_created" := MBool true]> metadata
        else <["incident_created" := MBool false]> metadata)
  else metadata.

Definition _extract_metadata (results : list StepResult) : gmap string meta_value :=
  foldl metadata_step ∅ results.

(** ** The runner *)

Inductive outcome : Type :=
| Returned (text : string)
| Raised (detail : string).

Section FlowRunner.
Context {World : Type} {layers_path : string}.

(** The [n]-th call of [time.time()] returns [clock n]. *)
Variable clock : nat → Q.

(** [task_method]: what [task_method().run(context=kwargs)] does to the
    world, and [str(result)] or [str(e)] for the exception [e] it raised. *)
Definition task_method : Type := gmap string yaml → World → outcome * World.

Record AutoK8sPilot : Type := {
  k8s_pods_overview : task_method;
  explain_pods : task_method;
  cluster_summary : task_method;
  k8s_top_nodes : task_method;
  k8s_top_pods_ns_default : task_method;
  k8s_events_recent : task_method;
  argocd_list_apps : task_method;
  argocd_app_status_chat_api : task_method;
  argocd_sync_chat_api : task_method;
  loki_recent_errors_chat_api : task_method;
  loki_http_activity_chat_api : task_method;
  dns_check_records : task_method;
  dns_get_record_api : task_method;
  dns_upsert_record_api : task_method;
  llm_gateway_health : task_method;
  mcp_k8s_env_check : task_method;
  incident_create_issue_if_needed : task_method
}.

Definition _build_tasks_map (crew : AutoK8sPilot) : gmap string task_method :=
  list_to_map [
    ("k8s_pods_overview", k8s_pods_overview crew);
    ("explain_pods", explain_pods crew);
    ("cluster_summary", cluster_summary crew);
    ("k8s_top_nodes", k8s_top_nodes crew);
    ("k8s_top_pods_ns_default", k8s_top_pods_ns_default crew);
    ("k8s_events_recent", k8s_events_recent crew);
    ("argocd_list_apps", argocd_list_apps crew);
    ("argocd_app_status_chat_api", argocd_app_status_chat_api crew);
    ("argocd_sync_chat_api", argocd_sync_chat_api crew);
    ("loki_recent_errors_chat_api", loki_recent_errors_chat_api crew);
    ("loki_http_activity_chat_api", loki_http_activity_chat_api crew);
    ("dns_check_records", dns_check_records crew);
    ("dns_get_record_api", dns_get_record_api crew);
    ("dns_upsert_record_api", dns_upsert_record_api crew);
    ("llm_gateway_health", llm_gateway_health crew);
    ("mcp_k8s_env_check", mcp_k8s_env_check crew);
    ("incident_create_issue_if_needed", incident_create_issue_if_needed crew)
  ].

(** A runner of the directory at [layers_path]: [config_dir] is what is
    found there. *)
Record FlowRunner : Type := {
  crew : AutoK8sPilot;
  config_dir : gmap string yaml;
  tasks_map : gmap string task_method;
  config_dir_ok : dir_ok layers_path config_dir = true
}.

Definition __init__ (crew_instance : AutoK8sPilot) (config_dir : gmap string yaml)
    (config_dir_ok : dir_ok layers_path config_dir = true)
  : FlowRunner :=
  {| crew := crew_instance;
     config_dir := config_dir;
     tasks_map := _build_tasks_map crew_instance;
     config_dir_ok := config_dir_ok |}.

(** *** The state the loop threads *)

Record rt : Type := { world : World; ticks : nat }.

Definition M (A : Type) : Type := rt → result (A * rt).

#[local] Instance M_ret : MRet M := λ _ a st, Ok (a, st).
#[local] Instance M_bind : MBind M := λ _ _ f m st,
  match m st with
  | Ok (a, st') => f a st'
  | Raise e => Raise e
  end.

Definition lift {A} (r : result A) : M A := λ st,
  match r with
  | Ok a => Ok (a, st)
  | Raise e => Raise e
  end.

Definition time_time : M Q := λ st,
  Ok (clock (ticks st), {| world := world st; ticks := S (ticks st) |}).

Definition invoke (method : task_method) (kwargs : gmap string yaml) : M outcome :=
  λ st, let '(o, w) := method kwargs (world st) in
        Ok (o, {| world := w; ticks := ticks st |}).

(** *** Loading *)

Definition flow_file (flow_name : string) : string :=
  "flow-" +:+ flow_name +:+ ".yaml".

(** [path.exists()] for the path [layers / rel] of a flow file, with the
    content of the file when it is there. [os.stat] raises [ValueError] for
    a path with a zero character, and [exists] answers [False] to that; it
    lets the [OSError] of a name too long through. *)
Definition path_exists (self : FlowRunner) (rel : string) : result (option yaml) :=
  if has_char nul rel then Ok None
  else if too_long layers_path rel then Raise (OSError ENAMETOOLONG)
  else Ok (config_dir self !! rel).

Definition load_flow (self : FlowRunner) (flow_name : string) : result yaml :=
  found ← path_exists self (flow_file flow_name);
  match found with
  | None => Raise (FileNotFoundError ("Flow not found: " +:+ flow_name))
  | Some flow_config =>
      steps_config ← py_get flow_config "steps" (YSeq []);
      _ ← py_len steps_config;
      mret flow_config
  end.

(** [open] raises [FileNotFoundError], an [OSError] with [errno] [ENOENT],
    when behavior.yaml is missing. *)
Definition _load_behavior (self : FlowRunner) : result yaml :=
  if too_long layers_path "behavior.yaml" then Raise (OSError ENAMETOOLONG)
  else
    match config_dir self !! "behavior.yaml" with
    | None => Raise (OSError ENOENT)
    | Some behavior => Ok behavior
    end.

(** [{t["id"]: t["agent"] for t in tasks}]; only its string keys can be
    hit by the later [get] with a string task id. *)
Fixpoint task_agent_map_of (tasks : list yaml) (acc : gmap string yaml)
  : result (gmap string yaml) :=
  match tasks with
  | [] => Ok acc
  | t :: rest =>
      id ← py_getitem t "id";
      a ← py_getitem t "agent";
      k ← as_hashable id;
      task_agent_map_of rest
        (match k with SStr s => <[s := a]> acc | _ => acc end)
  end.

Definition load_task_agent_map (self : FlowRunner) : result (gmap string yaml) :=
  behavior ← _load_behavior self;
  tasks ← py_get behavior "tasks" (YSeq []);
  ts ← py_iter tasks;
  task_agent_map_of ts ∅.

(** *** The step loop *)

(** [self.tasks_map.get(task_id)]: every key of the map is a string. *)
Definition tasks_map_get (self : FlowRunner) (k : scalar)
  : option (string * task_method) :=
  match k with
  | SStr s => (λ m, (s, m)) <$> tasks_map self !! s
  | _ => None
  end.

(** [{**inputs, **context}] *)
Definition merged_context (inputs : gmap string yaml) (context : gmap string string)
  : gmap string yaml :=
  (YStr <$> context) ∪ inputs.

Definition not_found_result (task_id : yaml) (k : scalar) : StepResult :=
  {| agent := YStr "unknown";
     task := task_id;
     output := "ERROR: task '" +:+ py_str k +:+ "' not found";
     duration_ms := 0 |}.

(** The body of [for step in steps_config]. *)
Definition run_step (self : FlowRunner) (inputs : gmap string yaml)
    (task_agent_map : gmap string yaml) (step : yaml)
    (results : list StepResult) (context : gmap string string)
  : M (list StepResult * gmap string string) :=
  task_id ← lift (py_get step "run" YNull);
  if negb (truthy task_id) then mret (results, context)
  else
    k ← lift (as_hashable task_id);
    match tasks_map_get self k with
    | None => mret (results ++ [not_found_result task_id k], context)
    | Some (tid, method) =>
        let agent_id := default (YStr "unknown") (task_agent_map !! tid) in
        start ← time_time;
        o ← invoke method (merged_context inputs context);
        out ← match o with
              | Returned text => _ ← time_time; mret text
              | Raised detail => mret ("ERROR: " +:+ detail)
              end;
        now ← time_time;
        mret (results ++ [ {| agent := agent_id;
                              task := task_id;
                              output := out;
                              duration_ms := elapsed_ms start now |} ],
              <[tid := out]> context)
    end.

Fixpoint run_steps (self : FlowRunner) (inputs : gmap string yaml)
    (task_agent_map : gmap string yaml) (steps_config : list yaml)
    (results : list StepResult) (context : gmap string string)
  : M (list StepResult * gmap string string) :=
  match steps_config with
  | [] => mret (results, context)
  | step :: rest =>
      '(results, context) ← run_step self inputs task_agent_map step results context;
      run_steps self inputs task_agent_map rest results context
  end.

Definition run_flow (self : FlowRunner) (flow_name : string)
    (inputs : gmap string yaml) : M RunResult :=
  flow ← lift (load_flow self flow_name);
  steps_config ← lift (py_get flow "steps" (YSeq []));
  task_agent_map ← lift (load_task_agent_map self);
  total_start ← time_time;
  steps_list ← lift (py_iter steps_config);
  '(results, _) ← run_steps self inputs task_agent_map steps_list [] ∅;
  total_end ← time_time;
  let total_duration_ms := elapsed_ms total_start total_end in
  let final_answer := _extract_final_answer results in
  let metadata := _extract_metadata results in
  let metadata := <["total_duration_ms" := MInt total_duration_ms]> metadata in
  mret {| final_answer := final_answer;
          steps := results;
          metadata := metadata |}.

End FlowRunner.

(** ** Vocabulary of the properties *)

(** The step descriptors of a flow document, [flow.get("steps", [])]. *)
Definition flow_steps (flow : yaml) : list yaml :=
  match py_get flow "steps" (YSeq []) with
  | Ok (YSeq items) => items
  | _ => []
  end.

(** The task identifier of a step descriptor, [step.get("run")]. *)
Definition step_task_id (step : yaml) : yaml :=
  match py_get step "run" YNull with
  | Ok v => v
  | Raise _ => YNull
  end.

(** A step descriptor is a mapping whose [run] entry is missing, null or a
    string. *)
Definition valid_step (step : yaml) : bool :=
  match step with
  | YMap entries =>
      match dict_get "run" entries with
      | None | Some YNull | Some (YStr _) => true
      | Some _ => false
      end
  | _ => false
  end.

(** A flow document is a mapping whose [steps] entry is missing or a
    sequence of step descriptors. *)
Definition valid_flow (flow : yaml) : bool :=
  match flow with
  | YMap entries =>
      match dict_get "steps" entries with
      | None => true
      | Some (YSeq items) => forallb valid_step items
      | Some _ => false
      end
  | _ => false
  end.

(** What a caller can tell of a step apart from its agent and duration. *)
Definition task_and_output (r : StepResult) : yaml * string := (task r, output r).

(** The output a task invocation leaves in its StepResult. *)
Definition outcome_text (o : outcome) : string :=
  match o with
  | Returned text => text
  | Raised detail => "ERROR: " +:+ detail
  end.

(** The calls of [time.time()] from the one that starts the measurement of
    an invocation to the one that ends it: a completed step reads the clock
    once more, for its log entry. *)
Definition clock_reads (o : outcome) : nat :=
  match o with
  | Returned _ => 2%nat
  | Raised _ => 1%nat
  end.

(** The output of the latest result for task [k] among the results of tasks
    the registry holds, that is among the invoked steps. *)
Definition last_invoked_output {World : Type} {layers_path : string}
    (self : @FlowRunner World layers_path) (k : string)
    (results : list StepResult) : option string :=
  output <$> last (filter (λ r, task_is r k && bool_decide (is_Some (tasks_map self !! k)))
                      results).

(** ** A concrete crew, configuration and clock *)

(** The world of the examples is the log of the contexts the tasks were
    invoked with. *)
Definition ex_world : Type := list (gmap string yaml).

Definition ex_returns (text : string) : @task_method ex_world :=
  λ kwargs w, (Returned text, w ++ [kwargs]).

Definition ex_raises (detail : string) : @task_method ex_world :=
  λ kwargs w, (Raised detail, w ++ [kwargs]).

(** Answers "first" when no task was invoked before it, "second" otherwise. *)
Definition ex_first_then_second : @task_method ex_world :=
  λ kwargs w,
    (Returned (match w with [] => "first" | _ => "second" end), w ++ [kwargs]).

Definition ex_crew : @AutoK8sPilot ex_world := {|
  k8s_pods_overview := ex_returns "3 pods running";
  explain_pods := ex_raises "connection refused";
  cluster_summary := ex_first_then_second;
  k8s_top_nodes := ex_returns "ok";
  k8s_top_pods_ns_default := ex_returns "ok";
  k8s_events_recent := ex_returns "ok";
  argocd_list_apps := ex_returns "ok";
  argocd_app_status_chat_api := ex_returns "ok";
  argocd_sync_chat_api := ex_returns "ok";
  loki_recent_errors_chat_api := ex_returns "ok";
  loki_http_activity_chat_api := ex_returns "ok";
  dns_check_records := ex_returns "ok";
  dns_get_record_api := ex_returns "ok";
  dns_upsert_record_api := ex_returns "ok";
  llm_gateway_health := ex_returns "ok";
  mcp_k8s_env_check := ex_returns "ok";
  incident_create_issue_if_needed := ex_returns "Created issue #123"
|}.

Definition ex_step (tid : string) : yaml := YMap [("run", YStr tid)].

Definition ex_behavior : yaml :=
  YMap [("tasks",
         YSeq [YMap [("id", YStr "k8s_pods_overview"); ("agent", YStr "k8s_operator")];
               YMap [("id", YStr "explain_pods"); ("agent", YStr "reporting_analyst")]])].

(** The same tasks bound to other agents. *)
Definition ex_behavior' : yaml :=
  YMap [("tasks",
         YSeq [YMap [("id", YStr "k8s_pods_overview"); ("agent", YStr "infra_architect")];
               YMap [("id", YStr "cluster_summary"); ("agent", YStr "reporting_analyst")]])].

Definition ex_healthcheck_steps : list yaml :=
  [ex_step "k8s_pods_overview"; ex_step "explain_pods";
   YMap [("note", YStr "no task here")]; ex_step "cluster_summary"].

Definition ex_config_dir : gmap string yaml :=
  list_to_map [
    ("behavior.yaml", ex_behavior);
    ("flow-k8s-healthcheck.yaml", YMap [("steps", YSeq ex_healthcheck_steps)]);
    ("flow-empty.yaml", YMap [("name", YStr "empty")]);
    ("flow-unknown-task.yaml",
     YMap [("steps", YSeq [ex_step "restart_pods"; ex_step "k8s_pods_overview"])]);
    ("flow-repeat.yaml",
     YMap [("steps", YSeq [ex_step "cluster_summary"; ex_step "cluster_summary";
                           ex_step "k8s_pods_overview"])]);
    ("flow-bare-names.yaml", YMap [("steps", YSeq [YStr "k8s_pods_overview"])])
  ].

Definition ex_layers : string := "/app/config/layers".

(** The runner of the examples over the files [files]. *)
Definition ex_init (crew : @AutoK8sPilot ex_world) (files : gmap string yaml)
    (ok : dir_ok ex_layers files = true) : @FlowRunner ex_world ex_layers :=
  __init__ crew files ok.

Definition ex_runner : @FlowRunner ex_world ex_layers :=
  ex_init ex_crew ex_config_dir eq_refl.

Definition ex_runner' : @FlowRunner ex_world ex_layers :=
  ex_init ex_crew (<["behavior.yaml" := ex_behavior']> ex_config_dir)
    eq_refl.

(** A runner whose configuration directory has the flows but no
    behavior.yaml. *)
Definition ex_runner_no_behavior : @FlowRunner ex_world ex_layers :=
  ex_init ex_crew (delete "behavior.yaml" ex_config_dir) eq_refl.

(** A quarter of a second passes between two readings of the clock. *)
Definition ex_clock (n : nat) : Q := Z.of_nat n # 4.

Definition ex_start : @rt ex_world := {| world := []; ticks := 0 |}.

Definition ex_inputs : gmap string yaml :=
  {[ "namespace" := YStr "default"; "app_name" := YStr "chat-api" ]}.

(** The task → agent map of [ex_behavior]. *)
Definition ex_task_agent_map : gmap string yaml :=
  {[ "k8s_pods_overview" := YStr "k8s_operator";
     "explain_pods" := YStr "reporting_analyst" ]}.

(** The loop after [k8s_pods_overview] ran first, from [ex_start]. *)
Definition ex_pods_result : StepResult :=
  {| agent := YStr "k8s_operator";
     task := YStr "k8s_pods_overview";
     output := "3 pods running";
     duration_ms := 500 |}.

Definition ex_pods_context : gmap string string :=
  {[ "k8s_pods_overview" := "3 pods running" ]}.

Definition ex_after_pods : @rt ex_world := {| world := [ex_inputs]; ticks := 3 |}.

(** A clock twice as slow as [ex_clock]. *)
Definition ex_clock' (n : nat) : Q := Z.of_nat n # 2.

Definition ex_result (tid out : string) : StepResult :=
  {| agent := YStr "unknown"; task := YStr tid; output := out; duration_ms := 0 |}.

(** ** Listing flows and agents *)

(** [s.endswith(suffix)]: [suffix] is [s] or the end of its tail. *)
Fixpoint ends_with (suffix s : string) : bool :=
  String.eqb suffix s ||
  match s with
  | EmptyString => false
  | String _ s' => ends_with suffix s'
  end.

(** What follows the prefix [p] in [s], when [s] starts with [p]. *)
Fixpoint strip_prefix (p s : string) : option string :=
  match p with
  | EmptyString => Some s
  | String a p' =>
      match s with
      | EmptyString => None
      | String b s' => if Ascii.eqb a b then strip_prefix p' s' else None
      end
  end.

(** The file names [layers_dir.glob("flow-*.yaml")] yields: ["flow-"], any
    characters, [".yaml"]. The glob looks at the directory itself: a key with
    a slash stands for a file of a subdirectory and is not matched. *)
Definition glob_flow (name : string) : bool :=
  negb (contains "/" name) &&
  match strip_prefix "flow-" name with
  | Some rest => ends_with ".yaml" rest
  | None => false
  end.

(** [name.rfind(".")] *)
Fixpoint rfind_dot (name : string) : option nat :=
  match name with
  | EmptyString => None
  | String c name' =>
      match rfind_dot name' with
      | Some i => Some (S i)
      | None => if Ascii.eqb c (Ascii.ascii_of_nat 46) then Some 0%nat else None
      end
  end.

(** [PurePath.stem]: the name without its last suffix; a dot that starts or
    ends the name starts no suffix. *)
Definition stem (name : string) : string :=
  match rfind_dot name with
  | Some i =>
      if (0 <? i)%nat && (i <? String.length name - 1)%nat
      then String.substring 0 i name
      else name
  | None => name
  end.

(** [s.replace(old, "")] for a non-empty [old]: the occurrences of [old] are
    found from left to right, each search starting after the previous
    occurrence; [skip] counts the characters of an occurrence still to drop. *)
Fixpoint remove_from (old : string) (skip : nat) (s : string) : string :=
  match s with
  | EmptyString => EmptyString
  | String c s' =>
      match skip with
      | S k => remove_from old k s'
      | O =>
          if String.prefix old s
          then remove_from old (String.length old - 1) s'
          else String c (remove_from old 0 s')
      end
  end.

Definition remove_all (old s : string) : string := remove_from old 0 s.

(** The names of the agents of a behaviour description,
    [[a["id"] for a in agents]]. *)
Fixpoint agent_ids (agents : list yaml) : result (list yaml) :=
  match agents with
  | [] => Ok []
  | a :: rest =>
      id ← py_getitem a "id";
      ids ← agent_ids rest;
      mret (id :: ids)
  end.

Section Listing.
Context {World : Type} {layers_path : string}.

(** [glob] yields the files in the order of the directory; here they come
    in the order of [map_to_list]. *)
Definition list_flows (self : @FlowRunner World layers_path) : list string :=
  (λ f, remove_all "flow-" (stem f)) <$>
    filter (λ f, glob_flow f) (map_to_list (config_dir self)).*1.

Definition list_agents (self : @FlowRunner World layers_path) : result (list yaml) :=
  behavior ← _load_behavior self;
  agents ← py_get behavior "agents" (YSeq []);
  agent_list ← py_iter agents;
  agent_ids agent_list.

End Listing.

(** ** The HTTP endpoint, [api.py] *)

Module Api.

(** The request body, as FastAPI hands it to the endpoint. *)
Record RunRequest : Type := {
  namespace : string;
  app_name : option string;
  context : option (gmap string yaml)
}.

(** The response models [StepResult] and [RunResponse] of api.py; the
    prefix tells the first from the dictionaries of the runner. *)
Record ApiStepResult : Type := {
  api_agent : string;
  api_task : string;
  api_output : string;
  api_duration_ms : Z
}.

Record RunResponse : Type := {
  response_final_answer : string;
  response_steps : list ApiStepResult;
  response_metadata : gmap string meta_value
}.

(** The [detail] of an [HTTPException]: a text, or [str(e)] of the
    exception the endpoint caught. *)
Inductive caught : Type :=
| FromRunner (e : exn)
| ValidationError.

Inductive detail : Type :=
| Text (s : string)
| StrOf (e : caught).

Record HTTPException : Type := {
  status_code : Z;
  http_detail : detail
}.

(** A [str] field of a pydantic model takes a string and nothing else of
    what a result dictionary can hold. *)
Definition validate_str (v : yaml) : option string :=
  match v with
  | YStr s => Some s
  | _ => None
  end.

(** The model [StepResult] built from a result dictionary. *)
Definition validate_step (s : StepResult) : option ApiStepResult :=
  a ← validate_str (agent s);
  t ← validate_str (task s);
  Some {| api_agent := a;
          api_task := t;
          api_output := output s;
          api_duration_ms := duration_ms s |}.

(** [request.app_name or "chat-api"] *)
Definition app_name_or_default (request : RunRequest) : string :=
  match app_name request with
  | Some name => if String.eqb name "" then "chat-api" else name
  | None => "chat-api"
  end.

(** [{"namespace": ..., "app_name": ..., **(request.context or {})}] *)
Definition request_inputs (request : RunRequest) : gmap string yaml :=
  default ∅ (context request) ∪
  {[ "namespace" := YStr (namespace request);
     "app_name" := YStr (app_name_or_default request) ]}.

Section Endpoint.
Context {World : Type} {layers_path : string}.
Variable clock : nat → Q.

(** What the endpoint returns, or the [HTTPException] it raises; its
    effects on the world are those of [run_flow]. *)
Definition run_flow_endpoint (flow_runner : @FlowRunner World layers_path)
    (flow_name : string)
    (request : RunRequest) (st : @rt World) : RunResponse + HTTPException :=
  match run_flow clock flow_runner flow_name (request_inputs request) st with
  | Ok (result, _) =>
      match mapM validate_step (steps result) with
      | Some response_steps =>
          inl {| response_final_answer := final_answer result;
                 response_steps := response_steps;
                 response_metadata := metadata result |}
      | None =>
          inr {| status_code := 500; http_detail := StrOf ValidationError |}
      end
  | Raise e =>
      if is_FileNotFoundError e
      then inr {| status_code := 404;
                  http_detail := Text ("Flow not found: " +:+ flow_name) |}
      else inr {| status_code := 500; http_detail := StrOf (FromRunner e) |}
  end.

(** [run_default], for the [DEFAULT_FLOW] of the settings. *)
Definition run_default (flow_runner : @FlowRunner World layers_path)
    (DEFAULT_FLOW : string)
    (request : RunRequest) (st : @rt World) : RunResponse + HTTPException :=
  run_flow_endpoint flow_runner DEFAULT_FLOW request st.

End Endpoint.

End Api.

(** ** Tracing and logging, [observability/] *)

Module Tracing.

(** The endpoint [setup_tracing] hands to the span exporter. *)
Definition traces_endpoint (otlp_endpoint : string) : string :=
  if negb (ends_with "/v1/traces" otlp_endpoint)
  then otlp_endpoint +:+ "/v1/traces"
  else otlp_endpoint.

End Tracing.

Module Logger.

(** The span context of a recording span. *)
Record SpanContext : Type := { trace_id : N; span_id : N }.

Section Logger.

(** [format(n, "032x")] and [format(n, "016x")]. *)
Variables format_032x format_016x : N → string.

(** [EnrichedLogger._add_trace_context]; [span] is the context of the
    current span when it is recording, [log_context] the dictionary
    [log_context.get()] returns. *)
Definition _add_trace_context (span : option SpanContext)
    (log_context event_dict : gmap string yaml) : gmap string yaml :=
  let event_dict :=
    match span with
    | Some span_context =>
        <["span_id" := YStr (format_016x (span_id span_context))]>
          (<["trace_id" := YStr (format_032x (trace_id span_context))]> event_dict)
    | None => event_dict
    end in
  log_context ∪ event_dict.

End Logger.

(** [set_request_context]: the dictionary [log_context.get()] returns is
    updated in place and set again, so it is one dictionary for the whole
    process; the function maps its content before the call to its content
    after. *)
Definition set_request_context (kwargs log_context : gmap string yaml)
  : gmap string yaml :=
  kwargs ∪ log_context.

End Logger.

(** ** More vocabulary and examples *)

(** Every task of the registry gives the same outcome in every world. *)
Definition world_blind {World : Type} {layers_path : string}
    (self : @FlowRunner World layers_path) : Prop :=
  ∀ tid method, tasks_map self !! tid = Some method →
    ∀ kwargs w w', (method kwargs w).1 = (method kwargs w').1.

(** What a report tells of a step apart from its duration. *)
Definition step_identity (r : StepResult) : yaml * yaml * string :=
  (agent r, task r, output r).

Definition ex_request : Api.RunRequest :=
  {| Api.namespace := "prod";
     Api.app_name := None;
     Api.context := Some {[ "namespace" := YStr "staging"; "team" := YStr "sre" ]} |}.

(** The agent a task entry of the behaviour description binds [tid] to,
    when it is an entry for [tid]. *)
Definition binding_of (tid : string) (t : yaml) : option yaml :=
  match py_getitem t "id", py_getitem t "agent" with
  | Ok (YStr s), Ok a => if String.eqb s tid then Some a else None
  | _, _ => None
  end.

(** The agent a StepResult for [task_id] is annotated with: the binding of
    a task the registry holds, ["unknown"] without binding or without
    task. *)
Definition expected_agent {World : Type} {layers_path : string}
    (self : @FlowRunner World layers_path)
    (task_agent_map : gmap string yaml) (task_id : yaml) : yaml :=
  match task_id with
  | YStr tid =>
      match tasks_map self !! tid with
      | Some _ => default (YStr "unknown") (task_agent_map !! tid)
      | None => YStr "unknown"
      end
  | _ => YStr "unknown"
  end.

(** A flow document [load_flow] accepts: a mapping whose [steps] entry, if
    any, has a length. *)
Definition loadable (flow : yaml) : bool :=
  match flow with
  | YMap entries =>
      match dict_get "steps" entries with
      | None | Some (YStr _) | Some (YSeq _) | Some (YMap _) => true
      | Some _ => false
      end
  | _ => false
  end.

(** The clock never runs backwards. *)
Definition monotone (clock : nat → Q) : Prop :=
  ∀ i j, (i ≤ j)%nat → (clock i <= clock j)%Q.

(** A behaviour description with an agent roster, and one whose second
    task has no agent. *)
Definition ex_behavior_roster : yaml :=
  YMap [("agents",
         YSeq [YMap [("id", YStr "k8s_operator"); ("role", YStr "operator")];
               YMap [("id", YStr "reporting_analyst")]]);
        ("tasks",
         YSeq [YMap [("id", YStr "k8s_pods_overview"); ("agent", YStr "k8s_operator")];
               YMap [("id", YStr "k8s_pods_overview"); ("agent", YStr "infra_architect")]])].

Definition ex_behavior_no_agent : yaml :=
  YMap [("agents", YSeq [YMap [("id", YStr "k8s_operator")]; YMap [("role", YStr "x")]]);
        ("tasks",
         YSeq [YMap [("id", YStr "k8s_pods_overview"); ("agent", YStr "k8s_operator")];
               YMap [("id", YStr "explain_pods")]])].

Definition ex_runner_roster : @FlowRunner ex_world ex_layers :=
  ex_init ex_crew (<["behavior.yaml" := ex_behavior_roster]> ex_config_dir)
    eq_refl.

Definition ex_runner_no_agent : @FlowRunner ex_world ex_layers :=
  ex_init ex_crew (<["behavior.yaml" := ex_behavior_no_agent]> ex_config_dir)
    eq_refl.

(** A directory with the file flow-flow-nightly.yaml and no
    flow-nightly.yaml. *)
Definition ex_runner_nightly : @FlowRunner ex_world ex_layers :=
  ex_init ex_crew (<["flow-flow-nightly.yaml" := YMap []]> ex_config_dir)
    eq_refl.

(** What a StepResult appended between the clock readings [lo] and [hi]
    looks like: its agent is the expected one, and its duration is 0 or
    was measured between two of these readings. *)
Definition appended {World : Type} {layers_path : string} (clock : nat → Q)
    (self : @FlowRunner World layers_path)
    (task_agent_map : gmap string yaml) (lo hi : nat) (r : StepResult) : Prop :=
  agent r = expected_agent self task_agent_map (task r) ∧
  (duration_ms r = 0 ∨
   ∃ i j, (lo ≤ i)%nat ∧ (i ≤ j)%nat ∧ (j < hi)%nat ∧
          duration_ms r = elapsed_ms (clock i) (clock j)).

(** A crew whose tasks pay no attention to the world. *)
Definition ex_crew_blind : @AutoK8sPilot ex_world := {|
  k8s_pods_overview := ex_returns "3 pods running";
  explain_pods := ex_raises "connection refused";
  cluster_summary := ex_returns "all healthy";
  k8s_top_nodes := ex_returns "ok";
  k8s_top_pods_ns_default := ex_returns "ok";
  k8s_events_recent := ex_returns "ok";
  argocd_list_apps := ex_returns "ok";
  argocd_app_status_chat_api := ex_returns "ok";
  argocd_sync_chat_api := ex_returns "ok";
  loki_recent_errors_chat_api := ex_returns "ok";
  loki_http_activity_chat_api := ex_returns "ok";
  dns_check_records := ex_returns "ok";
  dns_get_record_api := ex_returns "ok";
  dns_upsert_record_api := ex_returns "ok";
  llm_gateway_health := ex_returns "ok";
  mcp_k8s_env_check := ex_returns "ok";
  incident_create_issue_if_needed := ex_returns "Created issue #123"
|}.

Definition ex_runner_blind : @FlowRunner ex_world ex_layers :=
  ex_init ex_crew_blind ex_config_dir eq_refl.

(** The world after other tasks ran, and a later start of the clock. *)
Definition ex_later : @rt ex_world := {| world := [ex_inputs; ∅]; ticks := 7 |}.

(** A directory with a flow whose [steps] entry is a string. *)
Definition ex_runner_text_steps : @FlowRunner ex_world ex_layers :=
  ex_init ex_crew (<["flow-text.yaml" := YMap [("steps", YStr "k8s_pods_overview")]]>
                     ex_config_dir)
    eq_refl.

(** The run of the flow k8s-healthcheck by [ex_runner] from [ex_start] on
    [ex_clock]: its report and the state it ends in. *)
Definition ex_healthcheck_report : RunResult :=
  {| final_answer := "second";
     steps :=
       [ex_pods_result;
        {| agent := YStr "reporting_analyst";
           task := YStr "explain_pods";
           output := "ERROR: connection refused";
           duration_ms := 250 |};
        {| agent := YStr "unknown";
           task := YStr "cluster_summary";
           output := "second";
           duration_ms := 500 |}];
     metadata :=
       {[ "cluster_summary" := MStr "second";
          "total_duration_ms" := MInt 2250 ]} |}.

Definition ex_healthcheck_end : @rt ex_world :=
  {| world :=
       [∅; YStr <$> ex_pods_context;
        YStr <$> <["explain_pods" := "ERROR: connection refused"]> ex_pods_context];
     ticks := 10 |}.

(** [path.exists()] raises for the file [rel] of the directory: the
    operating system is asked, and refuses the name. *)
Definition os_refuses (layers_path rel : string) : bool :=
  negb (has_char nul rel) && too_long layers_path rel.

(** [c * n] for a character [c]. *)
Fixpoint repeat_char (c : Ascii.ascii) (n : nat) : string :=
  match n with
  | O => EmptyString
  | S n' => String c (repeat_char c n')
  end.

(** A flow name of 246 letters: the name of its file has 256 bytes. *)
Definition ex_long_name : string := repeat_char (Ascii.ascii_of_nat 97) 246.

(** A clock that advances by a quarter of a second from one reading to
    the next, from 10 seconds on, and is set back by one second after its
    fifth reading. *)
Definition ex_clock_back (n : nat) : Q :=
  if (n <? 5)%nat then (40 + Z.of_nat n) # 4 else (36 + Z.of_nat n) # 4.

(** Two calls of [set_request_context]. *)
Definition ex_context_calls : list (gmap string yaml) :=
  [ {[ "request_id" := YStr "r-1"; "user" := YStr "alice" ]};
    {[ "user" := YStr "bob" ]} ].

(** ** Properties *)

(** *** Paths and files *)

Lemma has_char_app c s t : has_char c (s +:+ t) = has_char c s || has_char c t.
Proof.
  induction s as [| a s IH]; [reflexivity |].
  change (String a s +:+ t) with (String a (s +:+ t)). simpl.
  rewrite IH. by rewrite orb_assoc.
Qed.

Lemma fs_size_app s t : fs_size (s +:+ t) = (fs_size s + fs_size t)%nat.
Proof.
  induction s as [| a s IH]; [reflexivity |].
  change (String a s +:+ t) with (String a (s +:+ t)). simpl.
  rewrite IH. lia.
Qed.

Lemma split_slash_name s : has_char slash s = false → split_slash s = (s, []).
Proof.
  induction s as [| a s IH]; [reflexivity |]. simpl.
  intros [Ha Hs]%orb_false_elim. rewrite (IH Hs), Ha. reflexivity.
Qed.

(** A name without slash is the one component it adds to a path. *)
Lemma path_parts_name s :
  has_char slash s = false → s ≠ "" → s ≠ "." → path_parts s = [s].
Proof.
  intros Hs Hne Hdot. unfold path_parts. rewrite (split_slash_name _ Hs).
  rewrite filter_cons_True by done. reflexivity.
Qed.

Lemma too_long_name layers_path s :
  path_parts s = [s] →
  too_long layers_path s =
  (PATH_MAX <=? fs_size layers_path + S (fs_size s))%nat || (NAME_MAX <? fs_size s)%nat.
Proof.
  intros Hparts. unfold too_long, path_size. rewrite Hparts. simpl.
  by rewrite Nat.add_0_r.
Qed.

Lemma flow_file_cons flow_name :
  flow_file flow_name = "flow-" +:+ (flow_name +:+ ".yaml").
Proof. reflexivity. Qed.

Lemma prefix_flow_file flow_name : String.prefix "flow-" (flow_file flow_name) = true.
Proof.
  rewrite flow_file_cons. generalize (flow_name +:+ ".yaml"). intros s. by destruct s.
Qed.

Lemma flow_file_name flow_name :
  has_char slash (flow_file flow_name) = false →
  path_parts (flow_file flow_name) = [flow_file flow_name].
Proof. intros Hs. by apply path_parts_name. Qed.

(** The file name of a flow is accepted when a longer one is. *)
Lemma too_long_flow_file layers_path flow_name :
  has_char slash (flow_file ("flow-" +:+ flow_name)) = false →
  too_long layers_path (flow_file ("flow-" +:+ flow_name)) = false →
  too_long layers_path (flow_file flow_name) = false.
Proof.
  intros Hs. rewrite (too_long_name _ _ (flow_file_name _ Hs)).
  assert (Hs' : has_char slash (flow_file flow_name) = false).
  { change (flow_file ("flow-" +:+ flow_name))
      with ("flow-" +:+ flow_file flow_name) in Hs.
    rewrite has_char_app in Hs. by apply orb_false_elim in Hs as [_ Hs]. }
  rewrite (too_long_name _ _ (flow_file_name _ Hs')).
  change (flow_file ("flow-" +:+ flow_name)) with ("flow-" +:+ flow_file flow_name).
  rewrite fs_size_app. change (fs_size "flow-") with 5%nat.
  intros [H1 H2]%orb_false_elim. apply orb_false_intro.
  - apply Nat.leb_gt. apply Nat.leb_gt in H1. lia.
  - apply Nat.ltb_ge. apply Nat.ltb_ge in H2. lia.
Qed.

Section Files.
Context {World : Type} {layers_path : string}.
Implicit Types (self : @FlowRunner World layers_path).

Lemma behavior_path_ok self : too_long layers_path "behavior.yaml" = false.
Proof.
  pose proof (config_dir_ok self) as Hok. unfold dir_ok in Hok.
  apply andb_true_iff in Hok as [Hok _]. by apply negb_true_iff.
Qed.

Lemma config_dir_key_ok self key doc :
  config_dir self !! key = Some doc → key_ok layers_path key = true.
Proof.
  intros Hkey. pose proof (config_dir_ok self) as Hok. unfold dir_ok in Hok.
  apply andb_true_iff in Hok as [_ Hok]. rewrite forallb_forall in Hok.
  apply Hok. apply list_elem_of_In, list_elem_of_fmap.
  exists (key, doc). split; [reflexivity |]. by apply elem_of_map_to_list.
Qed.

(** A flow file of the directory has a name the operating system accepts. *)
Lemma flow_file_key_ok self flow_name doc :
  config_dir self !! flow_file flow_name = Some doc →
  has_char nul (flow_file flow_name) = false ∧
  has_char slash (flow_file flow_name) = false ∧
  too_long layers_path (flow_file flow_name) = false.
Proof.
  intros Hkey%config_dir_key_ok. unfold key_ok in Hkey.
  rewrite prefix_flow_file in Hkey. simpl in Hkey.
  apply andb_true_iff in Hkey as [Hkey H3].
  apply andb_true_iff in Hkey as [H1 H2].
  by rewrite !negb_true_iff in *.
Qed.

Lemma path_exists_present self flow_name doc :
  config_dir self !! flow_file flow_name = Some doc →
  path_exists self (flow_file flow_name) = Ok (Some doc).
Proof.
  intros Hkey. destruct (flow_file_key_ok _ _ _ Hkey) as (Hnul & _ & Hlong).
  unfold path_exists. by rewrite Hnul, Hlong, Hkey.
Qed.

Lemma path_exists_absent self flow_name :
  config_dir self !! flow_file flow_name = None →
  path_exists self (flow_file flow_name) =
  if os_refuses layers_path (flow_file flow_name)
  then Raise (OSError ENAMETOOLONG) else Ok None.
Proof.
  intros Hkey. unfold path_exists, os_refuses.
  destruct (has_char nul _); [reflexivity |]. simpl.
  destruct (too_long _ _); [reflexivity |]. by rewrite Hkey.
Qed.

Lemma load_flow_present self flow_name flow_config :
  config_dir self !! flow_file flow_name = Some flow_config →
  load_flow self flow_name =
  (steps_config ← py_get flow_config "steps" (YSeq []);
   _ ← py_len steps_config;
   mret flow_config).
Proof.
  intros Hkey. unfold load_flow. by rewrite (path_exists_present _ _ _ Hkey).
Qed.

Lemma load_flow_absent self flow_name :
  config_dir self !! flow_file flow_name = None →
  load_flow self flow_name =
  if os_refuses layers_path (flow_file flow_name)
  then Raise (OSError ENAMETOOLONG)
  else Raise (FileNotFoundError ("Flow not found: " +:+ flow_name)).
Proof.
  intros Hkey. unfold load_flow. rewrite (path_exists_absent _ _ Hkey).
  by destruct (os_refuses _ _).
Qed.

Lemma load_behavior_lookup self :
  _load_behavior self =
  match config_dir self !! "behavior.yaml" with
  | None => Raise (OSError ENOENT)
  | Some behavior => Ok behavior
  end.
Proof. unfold _load_behavior. by rewrite behavior_path_ok. Qed.

End Files.

Section Synthesizer.
Implicit Types (results rs : list StepResult) (r : StepResult).

Lemma append_nil (b : string) : "" +:+ b = b.
Proof. reflexivity. Qed.

Lemma append_cons (c : Ascii.ascii) (a b : string) :
  String c a +:+ b = String c (a +:+ b).
Proof. reflexivity. Qed.

(** [String.prefix] and [contains] are the prefix and substring tests. *)
Lemma prefix_app (p s : string) : String.prefix p s = true ↔ ∃ b, s = p +:+ b.
Proof.
  revert s. induction p as [| c p IH]; intros s.
  - split; [intros _; by exists s | by destruct s].
  - destruct s as [| c' s]; simpl.
    { split; [done | intros [b Hb]; by rewrite append_cons in Hb]. }
    destruct (Ascii.ascii_dec c c') as [-> | Hne].
    + rewrite IH. split; intros [b Hb]; exists b;
        rewrite append_cons in *; congruence.
    + split; [done | intros [b Hb]; rewrite append_cons in Hb; congruence].
Qed.

Lemma contains_unfold (needle s : string) :
  contains needle s =
  if String.prefix needle s then true
  else match s with
       | EmptyString => false
       | String _ s' => contains needle s'
       end.
Proof. by destruct s. Qed.

Lemma contains_substring (needle s : string) :
  contains needle s = true ↔ ∃ a b, s = a +:+ needle +:+ b.
Proof.
  induction s as [| c s IH]; rewrite contains_unfold.
  - destruct (String.prefix needle "") eqn:Hp.
    + apply prefix_app in Hp as [b Hb].
      split; [intros _; exists "", b; by rewrite append_nil | done].
    + split; [done |]. intros (a & b & Hab).
      destruct a as [| c a]; [| by rewrite append_cons in Hab].
      rewrite append_nil in Hab.
      assert (String.prefix needle "" = true) by (apply prefix_app; eauto).
      congruence.
  - destruct (String.prefix needle (String c s)) eqn:Hp.
    + apply prefix_app in Hp as [b Hb].
      split; [intros _; exists "", b; by rewrite append_nil | done].
    + rewrite IH. split.
      * intros (a & b & ->). exists (String c a), b. by rewrite append_cons.
      * intros (a & b & Hab). destruct a as [| c' a].
        -- rewrite append_nil in Hab.
           assert (String.prefix needle (String c s) = true)
             by (apply prefix_app; eauto).
           congruence.
        -- rewrite append_cons in Hab. injection Hab as _ ->. eauto.
Qed.

(** [output[:500] if output else ""] is [output[:500]]. *)
Lemma summary_truncation (o : string) :
  (if truthy (YStr o) then String.substring 0 500 o else "") =
  String.substring 0 500 o.
Proof. by destruct o. Qed.

Lemma task_is_inj r (a b : string) :
  task_is r a = true → task_is r b = true → a = b.
Proof.
  unfold task_is. destruct (task r); try done.
  intros Ha%String.eqb_eq Hb%String.eqb_eq. congruence.
Qed.

Lemma filter_task_is_singleton r (name : string) :
  filter (λ r, task_is r name) [r] = if task_is r name then [r] else [].
Proof.
  destruct (task_is r name) eqn:Hr.
  - rewrite filter_cons_True; [done | by apply Is_true_true_2].
  - rewrite filter_cons_False; [done | by apply Is_true_false_2].
Qed.

Lemma extract_metadata_snoc rs r :
  _extract_metadata (rs ++ [r]) = metadata_step (_extract_metadata rs) r.
Proof. unfold _extract_metadata. by rewrite foldl_app. Qed.

(** What the scan of [_extract_final_answer] finds: the first result, in
    scan order, whose task is the incident task or the summary task. *)
Lemma scan_final_answer_spec rs :
  scan_final_answer rs =
  output <$> head (filter (λ r, task_is r "incident_create_issue_if_needed"
                              || task_is r "cluster_summary") rs).
Proof.
  induction rs as [| r rs IH]; [done |]. simpl.
  destruct (task_is r "incident_create_issue_if_needed") eqn:Hi.
  - rewrite filter_cons_True; [done | rewrite Hi; simpl; tauto].
  - destruct (task_is r "cluster_summary") eqn:Hs.
    + rewrite filter_cons_True; [done | rewrite Hi, Hs; simpl; tauto].
    + rewrite filter_cons_False; [done | rewrite Hi, Hs; simpl; tauto].
Qed.

(** The synthesis reads the task and the output of the results only. *)
Lemma task_is_ext r r' (name : string) :
  task r = task r' → task_is r name = task_is r' name.
Proof. unfold task_is. by intros ->. Qed.

Lemma scan_final_answer_ext rs rs' :
  task_and_output <$> rs = task_and_output <$> rs' →
  scan_final_answer rs = scan_final_answer rs'.
Proof.
  revert rs'. induction rs as [| r rs IH]; intros [| r' rs']; try done.
  rewrite !fmap_cons. intros [= Ht Ho Hrs]. simpl.
  by rewrite !(task_is_ext r r') by done; rewrite Ho, (IH rs').
Qed.

Lemma extract_final_answer_ext rs rs' :
  task_and_output <$> rs = task_and_output <$> rs' →
  _extract_final_answer rs = _extract_final_answer rs'.
Proof.
  intros Heq. unfold _extract_final_answer.
  rewrite (scan_final_answer_ext (rev rs) (rev rs')).
  2: { change (map task_and_output (rev rs) = map task_and_output (rev rs')).
       rewrite !map_rev. f_equal. exact Heq. }
  assert (Hlast : output <$> last rs = output <$> last rs').
  { change output with (snd ∘ task_and_output).
    rewrite !option_fmap_compose, <- !fmap_last. by rewrite Heq. }
  destruct (last rs), (last rs'); simpl in Hlast; try done.
  by injection Hlast as ->.
Qed.

Lemma metadata_step_ext m r r' :
  task r = task r' → output r = output r' →
  metadata_step m r = metadata_step m r'.
Proof.
  intros Ht Ho. unfold metadata_step.
  by rewrite !(task_is_ext r r') by done; rewrite Ho.
Qed.

Lemma extract_metadata_ext rs rs' :
  task_and_output <$> rs = task_and_output <$> rs' →
  _extract_metadata rs = _extract_metadata rs'.
Proof.
  unfold _extract_metadata. generalize (∅ : gmap string meta_value).
  revert rs'. induction rs as [| r rs IH]; intros [| r' rs'] m; try done.
  rewrite !fmap_cons. intros [= Ht Ho Hrs]. simpl.
  rewrite (metadata_step_ext m r r') by done. by apply IH.
Qed.

(** C3 (the code at the failing input). With an incident result followed
    by a summary result and a third one, [_extract_final_answer] returns
    the summary output: neither the incident output nor the output of the
    last step. *)
Theorem extract_final_answer_summary_after_incident :
  _extract_final_answer
    [ex_result "incident_create_issue_if_needed" "A";
     ex_result "cluster_summary" "B";
     ex_result "k8s_pods_overview" "C"] = "B".
Proof. reflexivity. Qed.

(** C8. One pass over the results leaves under [cluster_summary] the
    first 500 characters of the output of the last summary step, under
    [incident_created] whether the output of the last incident step
    contains ["Created issue"], and nothing else; a key is absent when
    its task does not occur. *)
Theorem extract_metadata_last_write_wins results :
  _extract_metadata results !! "cluster_summary" =
    (λ r, MStr (String.substring 0 500 (output r))) <$>
      last (filter (λ r, task_is r "cluster_summary") results) ∧
  _extract_metadata results !! "incident_created" =
    (λ r, MBool (contains "Created issue" (output r))) <$>
      last (filter (λ r, task_is r "incident_create_issue_if_needed") results) ∧
  ∀ k, k ≠ "cluster_summary" → k ≠ "incident_created" →
       _extract_metadata results !! k = None.
Proof.
  induction results as [| r rs (IHs & IHi & IHo)] using rev_ind; [done |].
  rewrite extract_metadata_snoc, !filter_app, !filter_task_is_singleton.
  unfold metadata_step. rewrite summary_truncation.
  destruct (task_is r "cluster_summary") eqn:Hs;
    destruct (task_is r "incident_create_issue_if_needed") eqn:Hi.
  - by pose proof (task_is_inj _ _ _ Hs Hi).
  - rewrite last_snoc, app_nil_r. repeat split.
    + by rewrite lookup_insert_eq.
    + by rewrite lookup_insert_ne.
    + intros k Hk1 Hk2. rewrite lookup_insert_ne by done. by apply IHo.
  - rewrite last_snoc, app_nil_r. simpl.
    destruct (contains "Created issue" (output r)); repeat split;
      try (by rewrite lookup_insert_eq); try (by rewrite lookup_insert_ne);
      intros k Hk1 Hk2; rewrite lookup_insert_ne by done; by apply IHo.
  - by rewrite !app_nil_r.
Qed.

End Synthesizer.

Section Properties.
Context {World : Type} {layers_path : string}.
Variable clock : nat → Q.

Implicit Types (self : @FlowRunner World layers_path) (st : @rt World).
Implicit Types (inputs tam : gmap string yaml) (context ctx : gmap string string).
Implicit Types (results res : list StepResult) (step : yaml) (tid : string).
Implicit Types (method : @task_method World).

Ltac unfold_M :=
  unfold mbind, M_bind, mret, M_ret, lift, time_time, invoke in *; simpl in *.

Lemma truthy_str tid : tid ≠ "" → truthy (YStr tid) = true.
Proof.
  intros Hne. simpl. destruct (String.eqb_spec tid ""); [contradiction | done].
Qed.

Lemma elapsed_ms_nonneg (start now : Q) : (start <= now)%Q → 0 ≤ elapsed_ms start now.
Proof.
  intros Hle. unfold elapsed_ms, py_int.
  apply Z.quot_pos; [| done].
  destruct start as [a b], now as [c d]. unfold Qle in Hle. simpl in *. lia.
Qed.

(** The loop over a concatenation runs the first part, then the second
    from where the first stopped; an exception in the first part ends it. *)
Lemma run_steps_app self inputs tam pre post res ctx st :
  run_steps clock self inputs tam (pre ++ post) res ctx st =
  match run_steps clock self inputs tam pre res ctx st with
  | Ok ((res', ctx'), st') => run_steps clock self inputs tam post res' ctx' st'
  | Raise e => Raise e
  end.
Proof.
  revert res ctx st. induction pre as [| step pre IH]; intros res ctx st; [done |].
  simpl. unfold mbind, M_bind.
  destruct (run_step clock self inputs tam step res ctx st) as [[[res' ctx'] st'] | e];
    [apply IH | done].
Qed.

(** A step whose task the registry holds: the task is invoked once, on
    the merged context, and whatever its outcome one StepResult is
    appended and its output stored in the context. *)
Lemma run_step_invoked self inputs tam step tid method res ctx st o w' :
  py_get step "run" YNull = Ok (YStr tid) →
  tid ≠ "" →
  tasks_map self !! tid = Some method →
  method (merged_context inputs ctx) (world st) = (o, w') →
  run_step clock self inputs tam step res ctx st =
  Ok ((res ++ [ {| agent := default (YStr "unknown") (tam !! tid);
                   task := YStr tid;
                   output := outcome_text o;
                   duration_ms :=
                     elapsed_ms (clock (ticks st))
                                (clock (clock_reads o + ticks st)) |} ],
       <[tid := outcome_text o]> ctx),
      {| world := w'; ticks := S (clock_reads o) + ticks st |}).
Proof.
  intros Hrun Hne Hm Hcall. unfold run_step. unfold_M.
  rewrite Hrun. rewrite (truthy_str _ Hne). simpl. rewrite Hm. simpl.
  rewrite Hcall. destruct o; reflexivity.
Qed.

(** A step whose task the registry lacks: a StepResult is appended, the
    context, the world and the clock are left as they were. *)
Lemma run_step_not_found self inputs tam step tid res ctx st :
  py_get step "run" YNull = Ok (YStr tid) →
  tid ≠ "" →
  tasks_map self !! tid = None →
  run_step clock self inputs tam step res ctx st =
  Ok ((res ++ [ {| agent := YStr "unknown";
                   task := YStr tid;
                   output := "ERROR: task '" +:+ tid +:+ "' not found";
                   duration_ms := 0 |} ], ctx), st).
Proof.
  intros Hrun Hne Hm. unfold run_step. unfold_M.
  rewrite Hrun. rewrite (truthy_str _ Hne). simpl. rewrite Hm. reflexivity.
Qed.

(** A step without task identifier is skipped. *)
Lemma run_step_skipped self inputs tam step v res ctx st :
  py_get step "run" YNull = Ok v →
  truthy v = false →
  run_step clock self inputs tam step res ctx st = Ok ((res, ctx), st).
Proof.
  intros Hrun Hf. unfold run_step. unfold_M. rewrite Hrun, Hf. reflexivity.
Qed.

(** *** Valid flows run to the end *)

Lemma run_step_valid self inputs tam step res ctx st :
  valid_step step = true →
  ∃ res' ctx' st',
    run_step clock self inputs tam step res ctx st = Ok ((res', ctx'), st') ∧
    task <$> res' =
      (task <$> res) ++ filter (λ v, truthy v) [step_task_id step].
Proof.
  intros Hv. destruct step as [| | | | | entries]; try discriminate.
  simpl in Hv. unfold step_task_id. simpl.
  destruct (dict_get "run" entries) as [v |] eqn:Hrun.
  - destruct v as [| | | tid | |]; try discriminate.
    + eexists _, _, _. split.
      * apply (run_step_skipped _ _ _ _ YNull); [simpl; by rewrite Hrun | done].
      * simpl. by rewrite app_nil_r.
    + destruct (decide (tid = "")) as [-> | Hne].
      { eexists _, _, _. split.
        - apply (run_step_skipped _ _ _ _ (YStr "")); [simpl; by rewrite Hrun | done].
        - simpl. by rewrite app_nil_r. }
      assert (Hget : py_get (YMap entries) "run" YNull = Ok (YStr tid))
        by (simpl; by rewrite Hrun).
      rewrite filter_cons_True
        by (change (Is_true (truthy (YStr tid))); by rewrite (truthy_str _ Hne)).
      rewrite filter_nil.
      destruct (tasks_map self !! tid) as [method |] eqn:Hm.
      * destruct (method (merged_context inputs ctx) (world st)) as [o w'] eqn:Hcall.
        rewrite (run_step_invoked self inputs tam _ tid method res ctx st o w'
                   Hget Hne Hm Hcall).
        eexists _, _, _. split; [reflexivity |]. by rewrite fmap_app.
      * rewrite (run_step_not_found self inputs tam _ tid res ctx st Hget Hne Hm).
        eexists _, _, _. split; [reflexivity |]. by rewrite fmap_app.
  - eexists _, _, _. split.
    + apply (run_step_skipped _ _ _ _ YNull); [simpl; by rewrite Hrun | done].
    + simpl. by rewrite app_nil_r.
Qed.

Lemma run_steps_valid self inputs tam steps_config res ctx st :
  forallb valid_step steps_config = true →
  ∃ res' ctx' st',
    run_steps clock self inputs tam steps_config res ctx st = Ok ((res', ctx'), st') ∧
    task <$> res' =
      (task <$> res) ++ filter (λ v, truthy v) (step_task_id <$> steps_config).
Proof.
  revert res ctx st.
  induction steps_config as [| step rest IH]; intros res ctx st Hv.
  - eexists _, _, _. split; [reflexivity |]. simpl. by rewrite app_nil_r.
  - simpl in Hv. apply andb_prop in Hv as [Hstep Hrest].
    destruct (run_step_valid self inputs tam step res ctx st Hstep)
      as (res1 & ctx1 & st1 & Hrun & Htasks).
    destruct (IH res1 ctx1 st1 Hrest) as (res2 & ctx2 & st2 & Hrun2 & Htasks2).
    exists res2, ctx2, st2. split.
    + simpl. unfold mbind, M_bind. by rewrite Hrun.
    + rewrite Htasks2, Htasks, <- (assoc_L (++)).
      f_equal. rewrite fmap_cons.
      by rewrite <- filter_app.
Qed.

(** *** Exceptions that reach the caller *)

Lemma run_step_raises self inputs tam step res ctx st e :
  run_step clock self inputs tam step res ctx st = Raise e →
  e = AttributeError ∨ e = TypeError.
Proof.
  unfold run_step. unfold_M.
  destruct step as [| | | | | entries]; simpl; try (intros [= <-]; by left).
  destruct (truthy (default YNull (dict_get "run" entries))); simpl; [| done].
  destruct (default YNull (dict_get "run" entries)) as [| b | z | tid | items | m];
    simpl; try done; try (intros [= <-]; by right).
  destruct (tasks_map self !! tid) as [method |]; simpl; [| done].
  destruct (method (merged_context inputs ctx) (world st)) as [[text | detail] w'];
    done.
Qed.

Lemma run_steps_raises self inputs tam steps_config res ctx st e :
  run_steps clock self inputs tam steps_config res ctx st = Raise e →
  e = AttributeError ∨ e = TypeError.
Proof.
  revert res ctx st. induction steps_config as [| step rest IH]; intros res ctx st.
  - done.
  - simpl. unfold mbind, M_bind.
    destruct (run_step clock self inputs tam step res ctx st)
      as [[[res' ctx'] st'] | e'] eqn:Hstep.
    + apply IH.
    + intros [= <-]. by apply run_step_raises in Hstep.
Qed.

Lemma task_agent_map_of_raises (tasks : list yaml) (acc : gmap string yaml) e :
  task_agent_map_of tasks acc = Raise e →
  e = TypeError ∨ ∃ k, e = KeyError k.
Proof.
  revert acc. induction tasks as [| t rest IH]; intros acc; [done |].
  simpl. unfold mbind, result_bind.
  destruct (py_getitem t "id") as [id | e1] eqn:Hid.
  - destruct (py_getitem t "agent") as [a | e2] eqn:Ha.
    + destruct (as_hashable id) as [k | e3] eqn:Hk.
      * apply IH.
      * intros [= <-]. destruct id; simplify_eq/=; by left.
    + intros [= <-]. destruct t; simplify_eq/=; eauto.
      destruct (dict_get "agent" entries); simplify_eq/=; eauto.
  - intros [= <-]. destruct t; simplify_eq/=; eauto.
    destruct (dict_get "id" entries); simplify_eq/=; eauto.
Qed.

Lemma load_task_agent_map_raises self e flow_name :
  load_task_agent_map self = Raise e →
  e ≠ FileNotFoundError ("Flow not found: " +:+ flow_name).
Proof.
  unfold load_task_agent_map. rewrite load_behavior_lookup.
  unfold mbind, result_bind.
  destruct (config_dir self !! "behavior.yaml") as [behavior |].
  - destruct (py_get behavior "tasks" (YSeq [])) as [tasks | e1] eqn:Hget.
    + destruct (py_iter tasks) as [ts | e2] eqn:Hit.
      * intros [Hr | [k Hr]]%task_agent_map_of_raises; by subst.
      * intros [= <-]. destruct tasks; by simplify_eq/=.
    + intros [= <-]. destruct behavior; by simplify_eq/=.
  - intros [= <-]. discriminate.
Qed.

(** What [run_flow] does once the flow and the task → agent map are
    loaded: the loop, then the synthesis of the report. *)
Lemma run_flow_loaded self flow_name inputs st flow tam :
  config_dir self !! flow_file flow_name = Some flow →
  valid_flow flow = true →
  load_task_agent_map self = Ok tam →
  run_flow clock self flow_name inputs st =
  match run_steps clock self inputs tam (flow_steps flow) [] ∅
          {| world := world st; ticks := S (ticks st) |} with
  | Ok ((results, _), st') =>
      Ok ({| final_answer := _extract_final_answer results;
             steps := results;
             metadata :=
               <["total_duration_ms" :=
                   MInt (elapsed_ms (clock (ticks st)) (clock (ticks st')))]>
                 (_extract_metadata results) |},
          {| world := world st'; ticks := S (ticks st') |})
  | Raise e => Raise e
  end.
Proof.
  intros Hfile Hvalid Htam. unfold run_flow, flow_steps.
  rewrite (load_flow_present _ _ _ Hfile), Htam.
  destruct flow as [| | | | | entries]; try discriminate.
  unfold valid_flow in Hvalid. unfold py_get.
  destruct (dict_get "steps" entries) as [v |] eqn:Hsteps.
  - destruct v as [| | | | items |]; try discriminate.
    unfold_M. unfold mbind, result_bind. simpl. rewrite Hsteps. simpl.
    destruct (run_steps clock self inputs tam items [] ∅ _) as [[[res ctx] st'] | e];
      reflexivity.
  - unfold_M. unfold mbind, result_bind. simpl. rewrite Hsteps. reflexivity.
Qed.

(** Once the flow file is there, whatever [run_flow] raises is not the
    error of a missing flow. *)
Lemma run_flow_raises_found self flow_name inputs st flow e :
  config_dir self !! flow_file flow_name = Some flow →
  run_flow clock self flow_name inputs st = Raise e →
  e ≠ FileNotFoundError ("Flow not found: " +:+ flow_name).
Proof.
  intros Hfile. unfold run_flow. rewrite (load_flow_present _ _ _ Hfile).
  unfold_M. unfold mbind, result_bind.
  destruct (py_get flow "steps" (YSeq [])) as [sc | e1] eqn:Hget.
  2: { destruct flow; simplify_eq/=; intros [= <-]; done. }
  destruct (py_len sc) as [n | e2] eqn:Hlen.
  2: { destruct sc; simplify_eq/=; intros [= <-]; done. }
  simpl. rewrite Hget.
  destruct (load_task_agent_map self) as [tam | e3] eqn:Htam.
  2: { intros [= <-]. by eapply load_task_agent_map_raises. }
  destruct (py_iter sc) as [l | e4] eqn:Hit.
  2: { destruct sc; simplify_eq/=; intros [= <-]; done. }
  destruct (run_steps clock self inputs tam l [] ∅ _) as [[[res ctx] st'] | e5] eqn:Hrs.
  - done.
  - intros [= <-]. apply run_steps_raises in Hrs as [-> | ->]; done.
Qed.

(** *** What the context holds *)

Lemma merged_context_lookup inputs ctx (k : string) :
  merged_context inputs ctx !! k =
  match ctx !! k with
  | Some o => Some (YStr o)
  | None => inputs !! k
  end.
Proof.
  unfold merged_context. rewrite lookup_union, lookup_fmap.
  destruct (ctx !! k); simpl; [by destruct (inputs !! k) |].
  by destruct (inputs !! k).
Qed.

(** The three ways an iteration of the loop ends without exception: the
    step is skipped, reported as not found, or invoked. *)
Lemma run_step_inv self inputs tam step res ctx st res' ctx' st' :
  run_step clock self inputs tam step res ctx st = Ok ((res', ctx'), st') →
  (res' = res ∧ ctx' = ctx ∧ st' = st) ∨
  (∃ r, res' = res ++ [r] ∧ ctx' = ctx ∧ st' = st ∧
        ∀ k : string, task_is r k = true → tasks_map self !! k = None) ∨
  (∃ tid method o w',
      tasks_map self !! tid = Some method ∧
      method (merged_context inputs ctx) (world st) = (o, w') ∧
      res' = res ++ [ {| agent := default (YStr "unknown") (tam !! tid);
                         task := YStr tid;
                         output := outcome_text o;
                         duration_ms :=
                           elapsed_ms (clock (ticks st))
                                      (clock (clock_reads o + ticks st)) |} ] ∧
      ctx' = <[tid := outcome_text o]> ctx ∧
      st' = {| world := w'; ticks := S (clock_reads o) + ticks st |}).
Proof.
  unfold run_step. unfold_M.
  destruct step as [| | | | | entries]; simpl; try done.
  destruct (truthy (default YNull (dict_get "run" entries))); simpl.
  2: { intros [= <- <- <-]. by left. }
  destruct (default YNull (dict_get "run" entries)) as [| b | z | tid | items | m];
    simpl; try done;
    try (intros [= <- <- <-]; right; left; eexists; by repeat split).
  destruct (tasks_map self !! tid) as [method |] eqn:Hm; simpl.
  - destruct (method (merged_context inputs ctx) (world st)) as [o w'] eqn:Hcall.
    intros Hr. right. right. exists tid, method, o, w'.
    destruct o; simplify_eq/=; by repeat split.
  - intros [= <- <- <-]. right. left. eexists. repeat split.
    intros k. unfold task_is. simpl. by intros ->%String.eqb_eq.
Qed.

Lemma last_invoked_output_snoc self (k : string) res (r : StepResult) :
  last_invoked_output self k (res ++ [r]) =
  if task_is r k && bool_decide (is_Some (tasks_map self !! k))
  then Some (output r)
  else last_invoked_output self k res.
Proof.
  unfold last_invoked_output. rewrite filter_app.
  destruct (task_is r k && bool_decide (is_Some (tasks_map self !! k))) eqn:Hr.
  - rewrite (filter_cons_True _ r) by (by apply Is_true_true_2).
    by rewrite filter_nil, last_snoc.
  - rewrite (filter_cons_False _ r) by (by apply Is_true_false_2).
    by rewrite filter_nil, app_nil_r.
Qed.

(** The context maps a task identifier to the output of the latest
    invoked step with that identifier: one iteration keeps it so. *)
Lemma run_step_context self inputs tam step res ctx st res' ctx' st' :
  (∀ k, ctx !! k = last_invoked_output self k res) →
  run_step clock self inputs tam step res ctx st = Ok ((res', ctx'), st') →
  ∀ k, ctx' !! k = last_invoked_output self k res'.
Proof.
  intros Hctx Hstep k.
  apply run_step_inv in Hstep
    as [(-> & -> & ->) | [(r & -> & -> & -> & Hr) |
        (tid & method & o & w' & Hm & _ & -> & -> & _)]].
  - apply Hctx.
  - rewrite last_invoked_output_snoc.
    destruct (task_is r k) eqn:Hk; simpl; [| apply Hctx].
    rewrite (Hr k Hk). rewrite bool_decide_false by (by intros [? ?]). apply Hctx.
  - rewrite last_invoked_output_snoc. unfold task_is. simpl.
    destruct (String.eqb_spec tid k) as [-> | Hne]; simpl.
    + rewrite Hm, bool_decide_true by eauto. by rewrite lookup_insert_eq.
    + rewrite lookup_insert_ne by done. apply Hctx.
Qed.

Lemma run_steps_context self inputs tam steps_config res ctx st res' ctx' st' :
  (∀ k, ctx !! k = last_invoked_output self k res) →
  run_steps clock self inputs tam steps_config res ctx st = Ok ((res', ctx'), st') →
  ∀ k, ctx' !! k = last_invoked_output self k res'.
Proof.
  revert res ctx st.
  induction steps_config as [| step rest IH]; intros res ctx st Hctx.
  - by intros [= <- <- <-].
  - simpl. unfold mbind, M_bind.
    destruct (run_step clock self inputs tam step res ctx st)
      as [[[res1 ctx1] st1] | e] eqn:Hstep; [| done].
    apply IH. by eapply run_step_context.
Qed.

(** A [steps] entry that is null is not a missing one: [len] rejects it in
    [load_flow]. *)
Lemma run_flow_null_steps self flow_name inputs st entries :
  config_dir self !! flow_file flow_name = Some (YMap entries) →
  dict_get "steps" entries = Some YNull →
  run_flow clock self flow_name inputs st = Raise TypeError.
Proof.
  intros Hfile Hsteps. unfold run_flow. rewrite (load_flow_present _ _ _ Hfile).
  unfold_M. unfold mbind, result_bind. simpl. by rewrite Hsteps.
Qed.

(** *** Failure isolation *)

(** C1 (amended). In any run of the step loop, a step whose task the
    registry holds and whose invocation raises is recorded as a StepResult
    with output ["ERROR: "] followed by the failure detail and a measured
    [duration_ms], which is non-negative when the clock reading after the
    invocation is not before the one that precedes it; the result is
    appended and stored in the context as for a completed step, and the
    loop goes on with the steps that follow. *)
Theorem run_flow_step_failure_isolated self inputs tam pre step post tid method
    res0 ctx0 st0 res1 ctx1 st1 detail w' :
  run_steps clock self inputs tam pre res0 ctx0 st0 = Ok ((res1, ctx1), st1) →
  py_get step "run" YNull = Ok (YStr tid) →
  tid ≠ "" →
  tasks_map self !! tid = Some method →
  method (merged_context inputs ctx1) (world st1) = (Raised detail, w') →
  ∃ d,
    run_steps clock self inputs tam (pre ++ step :: post) res0 ctx0 st0 =
    run_steps clock self inputs tam post
      (res1 ++ [ {| agent := default (YStr "unknown") (tam !! tid);
                    task := YStr tid;
                    output := "ERROR: " +:+ detail;
                    duration_ms := d |} ])
      (<[tid := "ERROR: " +:+ detail]> ctx1)
      {| world := w'; ticks := S (S (ticks st1)) |} ∧
    ((clock (ticks st1) <= clock (S (ticks st1)))%Q → 0 ≤ d).
Proof.
  intros Hpre Hrun Hne Hm Hcall.
  exists (elapsed_ms (clock (ticks st1)) (clock (S (ticks st1)))).
  split; [| by apply elapsed_ms_nonneg].
  rewrite run_steps_app, Hpre. simpl. unfold mbind, M_bind.
  by rewrite (run_step_invoked self inputs tam step tid method res1 ctx1 st1
                (Raised detail) w' Hrun Hne Hm Hcall).
Qed.

(** C6. A step whose non-empty task identifier the registry lacks is
    recorded with output ["ERROR: task '<taskId>' not found"], agent
    ["unknown"] and [duration_ms] 0, and the loop goes on with the steps
    that follow. *)
Theorem run_flow_task_not_found self inputs tam pre step post tid
    res0 ctx0 st0 res1 ctx1 st1 :
  run_steps clock self inputs tam pre res0 ctx0 st0 = Ok ((res1, ctx1), st1) →
  py_get step "run" YNull = Ok (YStr tid) →
  tid ≠ "" →
  tasks_map self !! tid = None →
  run_steps clock self inputs tam (pre ++ step :: post) res0 ctx0 st0 =
  run_steps clock self inputs tam post
    (res1 ++ [ {| agent := YStr "unknown";
                  task := YStr tid;
                  output := "ERROR: task '" +:+ tid +:+ "' not found";
                  duration_ms := 0 |} ])
    ctx1 st1.
Proof.
  intros Hpre Hrun Hne Hm.
  rewrite run_steps_app, Hpre. simpl. unfold mbind, M_bind.
  by rewrite (run_step_not_found self inputs tam step tid res1 ctx1 st1 Hrun Hne Hm).
Qed.

(** *** One result per task identifier *)

Lemma run_flow_valid self flow_name inputs st flow tam :
  config_dir self !! flow_file flow_name = Some flow →
  valid_flow flow = true →
  load_task_agent_map self = Ok tam →
  ∃ r st',
    run_flow clock self flow_name inputs st = Ok (r, st') ∧
    task <$> steps r =
      filter (λ v, truthy v) (step_task_id <$> flow_steps flow).
Proof.
  intros Hfile Hvalid Htam.
  rewrite (run_flow_loaded self flow_name inputs st flow tam Hfile Hvalid Htam).
  assert (Hsteps : forallb valid_step (flow_steps flow) = true).
  { destruct flow as [| | | | | entries]; try discriminate.
    unfold flow_steps. simpl in *.
    destruct (dict_get "steps" entries) as [[| | | | items |] |]; done. }
  destruct (run_steps_valid self inputs tam (flow_steps flow) [] ∅
              {| world := world st; ticks := S (ticks st) |} Hsteps)
    as (res & ctx & st' & -> & Htasks).
  eexists _, _. split; [reflexivity |]. done.
Qed.

(** C4. A valid flow, the task → agent map being loaded, runs to the end,
    and the task identifiers of its StepResults are the non-empty task
    identifiers of its step descriptors, in the declared order; so there
    are as many StepResults as such descriptors. *)
Theorem run_flow_one_result_per_task_id self flow_name inputs st flow tam :
  config_dir self !! flow_file flow_name = Some flow →
  valid_flow flow = true →
  load_task_agent_map self = Ok tam →
  ∃ r st',
    run_flow clock self flow_name inputs st = Ok (r, st') ∧
    task <$> steps r =
      filter (λ v, truthy v) (step_task_id <$> flow_steps flow) ∧
    length (steps r) =
      length (filter (λ v, truthy v) (step_task_id <$> flow_steps flow)).
Proof.
  intros Hfile Hvalid Htam.
  destruct (run_flow_valid self flow_name inputs st flow tam Hfile Hvalid Htam)
    as (r & st' & Hrun & Htasks).
  exists r, st'. repeat split; [done | done |].
  by rewrite <- Htasks, length_fmap.
Qed.

(** C10 (amended). A flow whose document has no [steps] entry or an empty
    one still has the task → agent map loaded from the behaviour
    description: when that fails, [run_flow] raises its error; when it
    succeeds, [run_flow] invokes no task and returns the empty final
    answer, no StepResult and a metadata holding exactly the total
    duration. *)
Theorem run_flow_no_steps self flow_name inputs st entries :
  config_dir self !! flow_file flow_name = Some (YMap entries) →
  dict_get "steps" entries = None ∨ dict_get "steps" entries = Some (YSeq []) →
  run_flow clock self flow_name inputs st =
  match load_task_agent_map self with
  | Ok _ =>
      Ok ({| final_answer := "";
             steps := [];
             metadata :=
               {[ "total_duration_ms" :=
                    MInt (elapsed_ms (clock (ticks st)) (clock (S (ticks st)))) ]} |},
          {| world := world st; ticks := S (S (ticks st)) |})
  | Raise e => Raise e
  end.
Proof.
  intros Hfile Hsteps.
  destruct (load_task_agent_map self) as [tam | e] eqn:Htam.
  - rewrite (run_flow_loaded self flow_name inputs st (YMap entries) tam Hfile);
      [| by destruct Hsteps as [Hs | Hs]; simpl; rewrite Hs | done].
    unfold flow_steps. simpl.
    by destruct Hsteps as [Hs | Hs]; rewrite Hs.
  - unfold run_flow. rewrite (load_flow_present _ _ _ Hfile), Htam.
    unfold_M. unfold mbind, result_bind. simpl.
    by destruct Hsteps as [Hs | Hs]; rewrite Hs.
Qed.

(** *** What reaches the caller *)

(** Without flow file, [run_flow] ends at the test for the file. *)
Lemma run_flow_absent self flow_name inputs st :
  config_dir self !! flow_file flow_name = None →
  run_flow clock self flow_name inputs st =
  if os_refuses layers_path (flow_file flow_name)
  then Raise (OSError ENAMETOOLONG)
  else Raise (FileNotFoundError ("Flow not found: " +:+ flow_name)).
Proof.
  intros Hfile. unfold run_flow. rewrite (load_flow_absent _ _ Hfile).
  by destruct (os_refuses _ _).
Qed.

(** C2 (amended). [run_flow] raises the error of a missing flow,
    [FileNotFoundError] with message ["Flow not found: <flow_name>"],
    exactly when the flow has no source file and the operating system
    accepts the name of that file, and then returns no report, so no
    StepResult; for a missing file whose name the operating system
    refuses, it raises the [OSError] of the name too long; and for a valid
    flow, the task → agent map being loaded, it returns a report and
    raises nothing, whatever the tasks do. *)
Theorem run_flow_not_found_or_report self flow_name inputs st :
  (run_flow clock self flow_name inputs st =
     Raise (FileNotFoundError ("Flow not found: " +:+ flow_name)) ↔
   config_dir self !! flow_file flow_name = None ∧
   os_refuses layers_path (flow_file flow_name) = false) ∧
  (config_dir self !! flow_file flow_name = None →
   os_refuses layers_path (flow_file flow_name) = true →
   run_flow clock self flow_name inputs st = Raise (OSError ENAMETOOLONG)) ∧
  (∀ flow tam,
     config_dir self !! flow_file flow_name = Some flow →
     valid_flow flow = true →
     load_task_agent_map self = Ok tam →
     ∃ r st', run_flow clock self flow_name inputs st = Ok (r, st')).
Proof.
  split; [| split].
  - split.
    + intros Hraise.
      destruct (config_dir self !! flow_file flow_name) as [flow |] eqn:Hfile.
      * by destruct (run_flow_raises_found self flow_name inputs st flow _ Hfile Hraise).
      * split; [done |]. rewrite (run_flow_absent _ _ _ _ Hfile) in Hraise.
        by destruct (os_refuses _ _).
    + intros [Hfile Hos]. by rewrite (run_flow_absent _ _ _ _ Hfile), Hos.
  - intros Hfile Hos. by rewrite (run_flow_absent _ _ _ _ Hfile), Hos.
  - intros flow tam Hfile Hvalid Htam.
    destruct (run_flow_valid self flow_name inputs st flow tam Hfile Hvalid Htam)
      as (r & st' & Hrun & _).
    eauto.
Qed.

(** C5 (amended). After a step whose task the registry holds, whether its
    invocation completed or raised, the context maps the task identifier
    to the step's output, error text included, and so does the merged
    context the next invocation receives; a step whose task the registry
    lacks yields its StepResult and leaves the context as it was. *)
Theorem run_flow_context_after_step self inputs tam step tid res ctx st :
  py_get step "run" YNull = Ok (YStr tid) →
  tid ≠ "" →
  (∀ method, tasks_map self !! tid = Some method →
     ∃ r st',
       run_step clock self inputs tam step res ctx st =
         Ok ((res ++ [r], <[tid := output r]> ctx), st') ∧
       output r = outcome_text (method (merged_context inputs ctx) (world st)).1 ∧
       merged_context inputs (<[tid := output r]> ctx) !! tid = Some (YStr (output r))) ∧
  (tasks_map self !! tid = None →
     ∃ r, run_step clock self inputs tam step res ctx st = Ok ((res ++ [r], ctx), st)).
Proof.
  intros Hrun Hne. split.
  - intros method Hm.
    destruct (method (merged_context inputs ctx) (world st)) as [o w'] eqn:Hcall.
    rewrite (run_step_invoked self inputs tam step tid method res ctx st o w'
               Hrun Hne Hm Hcall).
    eexists {| agent := _; task := _; output := outcome_text o; duration_ms := _ |}, _.
    split; [reflexivity |]. simpl. split; [done |].
    by rewrite merged_context_lookup, lookup_insert_eq.
  - intros Hm.
    rewrite (run_step_not_found self inputs tam step tid res ctx st Hrun Hne Hm).
    by eexists.
Qed.

(** C7 (amended). The task invoked at a step receives the caller's inputs
    overridden by the accumulated context, which maps the identifier of
    every task invoked earlier in the run to the output of its latest
    invocation; steps whose task the registry lacks put nothing in it. *)
Theorem run_flow_context_received self inputs tam pre step post tid method
    st0 res1 ctx1 st1 :
  run_steps clock self inputs tam pre [] ∅ st0 = Ok ((res1, ctx1), st1) →
  py_get step "run" YNull = Ok (YStr tid) →
  tid ≠ "" →
  tasks_map self !! tid = Some method →
  ∃ kwargs o w',
    (∀ k, kwargs !! k =
          match last_invoked_output self k res1 with
          | Some out => Some (YStr out)
          | None => inputs !! k
          end) ∧
    method kwargs (world st1) = (o, w') ∧
    run_steps clock self inputs tam (pre ++ step :: post) [] ∅ st0 =
    run_steps clock self inputs tam post
      (res1 ++ [ {| agent := default (YStr "unknown") (tam !! tid);
                    task := YStr tid;
                    output := outcome_text o;
                    duration_ms :=
                      elapsed_ms (clock (ticks st1))
                                 (clock (clock_reads o + ticks st1)) |} ])
      (<[tid := outcome_text o]> ctx1)
      {| world := w'; ticks := S (clock_reads o) + ticks st1 |}.
Proof.
  intros Hpre Hrun Hne Hm.
  destruct (method (merged_context inputs ctx1) (world st1)) as [o w'] eqn:Hcall.
  exists (merged_context inputs ctx1), o, w'. split; [| split; [done |]].
  - intros k. rewrite merged_context_lookup.
    by rewrite (run_steps_context self inputs tam pre [] ∅ st0 res1 ctx1 st1).
  - rewrite run_steps_app, Hpre. simpl. unfold mbind, M_bind.
    by rewrite (run_step_invoked self inputs tam step tid method res1 ctx1 st1 o w'
                  Hrun Hne Hm Hcall).
Qed.

(** *** The agent bindings only annotate *)

Lemma flow_file_not_behavior (flow_name : string) :
  flow_file flow_name ≠ "behavior.yaml".
Proof. unfold flow_file. rewrite append_cons. discriminate. Qed.

Lemma run_step_agent_binding (clock' : nat → Q) self self' inputs tam tam'
    step res res' ctx st st' :
  tasks_map self' = tasks_map self →
  world st' = world st →
  task_and_output <$> res' = task_and_output <$> res →
  match run_step clock self inputs tam step res ctx st,
        run_step clock' self' inputs tam' step res' ctx st' with
  | Ok ((r, c), s), Ok ((r', c'), s') =>
      task_and_output <$> r' = task_and_output <$> r ∧ c' = c ∧ world s' = world s
  | Raise e, Raise e' => e' = e
  | _, _ => False
  end.
Proof.
  intros Htm Hw Hres. unfold run_step. unfold_M.
  destruct (py_get step "run" YNull) as [task_id |]; simpl; [| done].
  destruct (truthy task_id); simpl; [| done].
  destruct (as_hashable task_id) as [k |]; simpl; [| done].
  unfold tasks_map_get. rewrite Htm.
  destruct k as [| b | z | tid]; simpl;
    try (split; [by rewrite !fmap_app, Hres | done]).
  destruct (tasks_map self !! tid) as [method |]; simpl.
  - rewrite Hw.
    destruct (method (merged_context inputs ctx) (world st)) as [[text | detail] w''];
      simpl; by rewrite !fmap_app, Hres.
  - split; [by rewrite !fmap_app, Hres | done].
Qed.

Lemma run_steps_agent_binding (clock' : nat → Q) self self' inputs tam tam'
    steps_config res res' ctx st st' :
  tasks_map self' = tasks_map self →
  world st' = world st →
  task_and_output <$> res' = task_and_output <$> res →
  match run_steps clock self inputs tam steps_config res ctx st,
        run_steps clock' self' inputs tam' steps_config res' ctx st' with
  | Ok ((r, c), s), Ok ((r', c'), s') =>
      task_and_output <$> r' = task_and_output <$> r ∧ c' = c ∧ world s' = world s
  | Raise e, Raise e' => e' = e
  | _, _ => False
  end.
Proof.
  intros Htm. revert res res' ctx st st'.
  induction steps_config as [| step rest IH]; intros res res' ctx st st' Hw Hres.
  - done.
  - simpl. unfold mbind, M_bind.
    pose proof (run_step_agent_binding clock' self self' inputs tam tam'
                  step res res' ctx st st' Htm Hw Hres) as Hstep.
    destruct (run_step clock self inputs tam step res ctx st)
      as [[[r c] s] | e];
      destruct (run_step clock' self' inputs tam' step res' ctx st')
      as [[[r' c'] s'] | e']; try done.
    destruct Hstep as (Hr & -> & Hs). by apply IH.
Qed.

(** C9. Two runs of a flow that differ in the behaviour description
    only, both task → agent maps being loaded, and whatever their clocks
    read, end alike: both raise the same exception, or both return, with
    the same task identifiers and outputs step by step, the same final
    answer, the same metadata but for the total duration, and the world
    left in the same state. *)
Theorem run_flow_agent_binding_irrelevant (clock' : nat → Q) self self'
    behavior' flow_name inputs st st' tam tam' :
  tasks_map self' = tasks_map self →
  config_dir self' = <["behavior.yaml" := behavior']> (config_dir self) →
  load_task_agent_map self = Ok tam →
  load_task_agent_map self' = Ok tam' →
  world st' = world st →
  match run_flow clock self flow_name inputs st,
        run_flow clock' self' flow_name inputs st' with
  | Ok (r, s), Ok (r', s') =>
      task_and_output <$> steps r' = task_and_output <$> steps r ∧
      final_answer r' = final_answer r ∧
      delete "total_duration_ms" (metadata r') =
        delete "total_duration_ms" (metadata r) ∧
      world s' = world s
  | Raise e, Raise e' => e' = e
  | _, _ => False
  end.
Proof.
  intros Htm Hcfg Htam Htam' Hw. unfold run_flow.
  assert (Hflow : load_flow self' flow_name = load_flow self flow_name).
  { unfold load_flow, path_exists. rewrite Hcfg.
    by rewrite lookup_insert_ne by (apply not_eq_sym, flow_file_not_behavior). }
  rewrite Hflow, Htam, Htam'. unfold_M. unfold mbind.
  destruct (load_flow self flow_name) as [flow |]; simpl; [| done].
  destruct (py_get flow "steps" (YSeq [])) as [steps_config |]; simpl; [| done].
  destruct (py_iter steps_config) as [steps_list |]; simpl; [| done].
  pose proof (run_steps_agent_binding clock' self self' inputs tam tam' steps_list
                [] [] ∅ {| world := world st; ticks := S (ticks st) |}
                {| world := world st'; ticks := S (ticks st') |} Htm Hw eq_refl)
    as Hsteps.
  destruct (run_steps clock self inputs tam steps_list [] ∅ _) as [[[r c] s] | e];
    destruct (run_steps clock' self' inputs tam' steps_list [] ∅ _)
    as [[[r' c'] s'] | e']; try done.
  destruct Hsteps as (Hr & _ & Hs). simpl. repeat split; try done.
  - by apply extract_final_answer_ext.
  - rewrite !delete_insert_eq. f_equal. by apply extract_metadata_ext.
Qed.

End Properties.

(** ** The properties on the concrete crew *)

(** C1, as stated, fails: the clock is set back by one second while the
    task of the step [explain_pods] runs, between the readings 11 s and
    10.25 s; the invocation raises, and the step is recorded with its error
    text and the [duration_ms] -750. *)
Lemma run_flow_failed_step_negative_duration :
  ex_clock_back 4 = 44 # 4 ∧ ex_clock_back 5 = 41 # 4 ∧
  match run_flow ex_clock_back ex_runner "k8s-healthcheck" ex_inputs ex_start with
  | Ok (r, _) =>
      (λ s, (task s, output s, duration_ms s)) <$> steps r =
        [(YStr "k8s_pods_overview", "3 pods running", 500);
         (YStr "explain_pods", "ERROR: connection refused", -750);
         (YStr "cluster_summary", "second", 500)]
  | Raise _ => False
  end.
Proof. repeat split; vm_compute; reflexivity. Qed.

Lemma run_flow_step_failure_isolated_witness :
  ∃ d,
    run_steps ex_clock ex_runner ex_inputs ex_task_agent_map
      ([ex_step "k8s_pods_overview"] ++
       ex_step "explain_pods" :: [ex_step "cluster_summary"]) [] ∅ ex_start =
    run_steps ex_clock ex_runner ex_inputs ex_task_agent_map
      [ex_step "cluster_summary"]
      ([ex_pods_result] ++
       [ {| agent := default (YStr "unknown") (ex_task_agent_map !! "explain_pods");
            task := YStr "explain_pods";
            output := "ERROR: " +:+ "connection refused";
            duration_ms := d |} ])
      (<["explain_pods" := "ERROR: " +:+ "connection refused"]> ex_pods_context)
      {| world := [ex_inputs; merged_context ex_inputs ex_pods_context];
         ticks := S (S (ticks ex_after_pods)) |} ∧
    ((ex_clock (ticks ex_after_pods) <= ex_clock (S (ticks ex_after_pods)))%Q →
     0 ≤ d).
Proof.
  apply (run_flow_step_failure_isolated ex_clock ex_runner ex_inputs
           ex_task_agent_map [ex_step "k8s_pods_overview"] (ex_step "explain_pods")
           [ex_step "cluster_summary"] "explain_pods" (ex_raises "connection refused")
           [] ∅ ex_start [ex_pods_result] ex_pods_context ex_after_pods
           "connection refused" [ex_inputs; merged_context ex_inputs ex_pods_context]).
  - vm_compute. reflexivity.
  - reflexivity.
  - discriminate.
  - vm_compute. reflexivity.
  - reflexivity.
Defined.

(** C2, as stated, fails: a flow that resolves, each of whose steps is a
    bare task name instead of a mapping, makes [run_flow] raise
    [AttributeError]; with the flow present but behavior.yaml missing,
    [run_flow] raises the [FileNotFoundError] of [open]; and a flow without
    source whose file name has 256 bytes makes it raise an [OSError] that
    is no [FileNotFoundError]. *)
Lemma run_flow_raises_beyond_not_found :
  load_flow ex_runner "bare-names" =
    Ok (YMap [("steps", YSeq [YStr "k8s_pods_overview"])]) ∧
  run_flow ex_clock ex_runner "bare-names" ex_inputs ex_start = Raise AttributeError ∧
  is_Some (config_dir ex_runner_no_behavior !! flow_file "k8s-healthcheck") ∧
  run_flow ex_clock ex_runner_no_behavior "k8s-healthcheck" ex_inputs ex_start =
    Raise (OSError ENOENT) ∧
  is_FileNotFoundError (OSError ENOENT) = true ∧
  config_dir ex_runner !! flow_file ex_long_name = None ∧
  fs_size (flow_file ex_long_name) = 256%nat ∧
  run_flow ex_clock ex_runner ex_long_name ex_inputs ex_start =
    Raise (OSError ENAMETOOLONG) ∧
  is_FileNotFoundError (OSError ENAMETOOLONG) = false.
Proof.
  repeat split; try (vm_compute; reflexivity).
  vm_compute. eauto.
Qed.

Lemma run_flow_not_found_or_report_witness :
  run_flow ex_clock ex_runner "no-such-flow" ex_inputs ex_start =
    Raise (FileNotFoundError ("Flow not found: " +:+ "no-such-flow")) ∧
  run_flow ex_clock ex_runner ex_long_name ex_inputs ex_start =
    Raise (OSError ENAMETOOLONG) ∧
  ∃ r st', run_flow ex_clock ex_runner "k8s-healthcheck" ex_inputs ex_start = Ok (r, st').
Proof.
  split; [| split].
  - apply (proj1 (run_flow_not_found_or_report ex_clock ex_runner "no-such-flow"
                    ex_inputs ex_start)).
    split; vm_compute; reflexivity.
  - apply (proj1 (proj2 (run_flow_not_found_or_report ex_clock ex_runner ex_long_name
                           ex_inputs ex_start))).
    + vm_compute. reflexivity.
    + vm_compute. reflexivity.
  - apply (proj2 (proj2 (run_flow_not_found_or_report ex_clock ex_runner
                           "k8s-healthcheck" ex_inputs ex_start))
             (YMap [("steps", YSeq ex_healthcheck_steps)]) ex_task_agent_map).
    + vm_compute. reflexivity.
    + reflexivity.
    + vm_compute. reflexivity.
Defined.

Lemma run_flow_one_result_per_task_id_witness :
  ∃ r st',
    run_flow ex_clock ex_runner "k8s-healthcheck" ex_inputs ex_start = Ok (r, st') ∧
    task <$> steps r =
      filter (λ v, truthy v)
        (step_task_id <$> flow_steps (YMap [("steps", YSeq ex_healthcheck_steps)])) ∧
    length (steps r) =
      length (filter (λ v, truthy v)
                (step_task_id <$> flow_steps (YMap [("steps", YSeq ex_healthcheck_steps)]))).
Proof.
  apply (run_flow_one_result_per_task_id ex_clock ex_runner "k8s-healthcheck"
           ex_inputs ex_start (YMap [("steps", YSeq ex_healthcheck_steps)])
           ex_task_agent_map).
  - vm_compute. reflexivity.
  - reflexivity.
  - vm_compute. reflexivity.
Defined.

(** C5, as stated, fails: the step [restart_pods], which the registry lacks,
    yields its StepResult and leaves the context empty, and the task of the
    next step receives no [restart_pods] entry. *)
Lemma run_flow_not_found_step_leaves_context :
  run_steps ex_clock ex_runner ex_inputs ex_task_agent_map
    [ex_step "restart_pods"] [] ∅ ex_start =
    Ok (([ {| agent := YStr "unknown";
              task := YStr "restart_pods";
              output := "ERROR: task 'restart_pods' not found";
              duration_ms := 0 |} ], ∅), ex_start) ∧
  match run_flow ex_clock ex_runner "unknown-task" ex_inputs ex_start with
  | Ok (r, s) =>
      task_and_output <$> steps r =
        [(YStr "restart_pods", "ERROR: task 'restart_pods' not found");
         (YStr "k8s_pods_overview", "3 pods running")] ∧
      (λ kwargs : gmap string yaml, kwargs !! "restart_pods") <$> world s = [None]
  | Raise _ => False
  end.
Proof. split; [vm_compute; reflexivity |]. vm_compute. by split. Qed.

Lemma run_flow_context_after_step_witness :
  (∃ r st',
     run_step ex_clock ex_runner ex_inputs ex_task_agent_map (ex_step "explain_pods")
       [ex_pods_result] ex_pods_context ex_after_pods =
       Ok (([ex_pods_result] ++ [r], <["explain_pods" := output r]> ex_pods_context), st') ∧
     output r =
       outcome_text (ex_raises "connection refused"
                       (merged_context ex_inputs ex_pods_context)
                       (world ex_after_pods)).1 ∧
     merged_context ex_inputs (<["explain_pods" := output r]> ex_pods_context)
       !! "explain_pods" = Some (YStr (output r))) ∧
  (∃ r,
     run_step ex_clock ex_runner ex_inputs ex_task_agent_map (ex_step "restart_pods")
       [ex_pods_result] ex_pods_context ex_after_pods =
       Ok (([ex_pods_result] ++ [r], ex_pods_context), ex_after_pods)).
Proof.
  split.
  - apply (proj1 (run_flow_context_after_step ex_clock ex_runner ex_inputs
                    ex_task_agent_map (ex_step "explain_pods") "explain_pods"
                    [ex_pods_result] ex_pods_context ex_after_pods
                    eq_refl ltac:(discriminate))).
    vm_compute. reflexivity.
  - apply (proj2 (run_flow_context_after_step ex_clock ex_runner ex_inputs
                    ex_task_agent_map (ex_step "restart_pods") "restart_pods"
                    [ex_pods_result] ex_pods_context ex_after_pods
                    eq_refl ltac:(discriminate))).
    vm_compute. reflexivity.
Defined.

Lemma run_flow_task_not_found_witness :
  run_steps ex_clock ex_runner ex_inputs ex_task_agent_map
    ([ex_step "k8s_pods_overview"] ++
     ex_step "restart_pods" :: [ex_step "cluster_summary"]) [] ∅ ex_start =
  run_steps ex_clock ex_runner ex_inputs ex_task_agent_map
    [ex_step "cluster_summary"]
    ([ex_pods_result] ++
     [ {| agent := YStr "unknown";
          task := YStr "restart_pods";
          output := "ERROR: task '" +:+ "restart_pods" +:+ "' not found";
          duration_ms := 0 |} ])
    ex_pods_context ex_after_pods.
Proof.
  apply (run_flow_task_not_found ex_clock ex_runner ex_inputs ex_task_agent_map
           [ex_step "k8s_pods_overview"] (ex_step "restart_pods")
           [ex_step "cluster_summary"] "restart_pods" [] ∅ ex_start
           [ex_pods_result] ex_pods_context ex_after_pods).
  - vm_compute. reflexivity.
  - reflexivity.
  - discriminate.
  - vm_compute. reflexivity.
Defined.

(** C7, as stated, fails: [cluster_summary] runs twice, answering "first"
    then "second"; the task of the third step receives "second" under
    [cluster_summary], not the output "first" of the first step. *)
Lemma run_flow_repeated_task_overwrites_context :
  match run_flow ex_clock ex_runner "repeat" ex_inputs ex_start with
  | Ok (r, s) =>
      task_and_output <$> steps r =
        [(YStr "cluster_summary", "first");
         (YStr "cluster_summary", "second");
         (YStr "k8s_pods_overview", "3 pods running")] ∧
      (λ kwargs : gmap string yaml, kwargs !! "cluster_summary") <$> world s =
        [None; Some (YStr "first"); Some (YStr "second")]
  | Raise _ => False
  end.
Proof. vm_compute. by split. Qed.

Lemma run_flow_context_received_witness :
  ∃ kwargs o w',
    (∀ k, kwargs !! k =
          match last_invoked_output ex_runner k [ex_pods_result] with
          | Some out => Some (YStr out)
          | None => ex_inputs !! k
          end) ∧
    ex_raises "connection refused" kwargs (world ex_after_pods) = (o, w') ∧
    run_steps ex_clock ex_runner ex_inputs ex_task_agent_map
      ([ex_step "k8s_pods_overview"] ++
       ex_step "explain_pods" :: [ex_step "cluster_summary"]) [] ∅ ex_start =
    run_steps ex_clock ex_runner ex_inputs ex_task_agent_map
      [ex_step "cluster_summary"]
      ([ex_pods_result] ++
       [ {| agent := default (YStr "unknown") (ex_task_agent_map !! "explain_pods");
            task := YStr "explain_pods";
            output := outcome_text o;
            duration_ms :=
              elapsed_ms (ex_clock (ticks ex_after_pods))
                         (ex_clock (clock_reads o + ticks ex_after_pods)) |} ])
      (<["explain_pods" := outcome_text o]> ex_pods_context)
      {| world := w'; ticks := S (clock_reads o) + ticks ex_after_pods |}.
Proof.
  apply (run_flow_context_received ex_clock ex_runner ex_inputs ex_task_agent_map
           [ex_step "k8s_pods_overview"] (ex_step "explain_pods")
           [ex_step "cluster_summary"] "explain_pods" (ex_raises "connection refused")
           ex_start [ex_pods_result] ex_pods_context ex_after_pods).
  - vm_compute. reflexivity.
  - reflexivity.
  - discriminate.
  - vm_compute. reflexivity.
Defined.

Lemma run_flow_agent_binding_irrelevant_witness :
  match run_flow ex_clock ex_runner "k8s-healthcheck" ex_inputs ex_start,
        run_flow ex_clock' ex_runner' "k8s-healthcheck" ex_inputs ex_start with
  | Ok (r, s), Ok (r', s') =>
      task_and_output <$> steps r' = task_and_output <$> steps r ∧
      final_answer r' = final_answer r ∧
      delete "total_duration_ms" (metadata r') =
        delete "total_duration_ms" (metadata r) ∧
      world s' = world s
  | Raise e, Raise e' => e' = e
  | _, _ => False
  end.
Proof.
  apply (run_flow_agent_binding_irrelevant ex_clock ex_clock' ex_runner ex_runner'
           ex_behavior' "k8s-healthcheck" ex_inputs ex_start ex_start
           ex_task_agent_map
           {[ "k8s_pods_overview" := YStr "infra_architect";
              "cluster_summary" := YStr "reporting_analyst" ]}).
  - reflexivity.
  - reflexivity.
  - vm_compute. reflexivity.
  - vm_compute. reflexivity.
  - reflexivity.
Defined.

(** C10, as stated, fails: the flow [empty], which has no [steps] entry,
    makes [run_flow] raise when behavior.yaml is missing, and when one of
    its task entries has no agent. *)
Lemma run_flow_no_steps_raises :
  config_dir ex_runner_no_behavior !! flow_file "empty" =
    Some (YMap [("name", YStr "empty")]) ∧
  run_flow ex_clock ex_runner_no_behavior "empty" ex_inputs ex_start =
    Raise (OSError ENOENT) ∧
  config_dir ex_runner_no_agent !! flow_file "empty" =
    Some (YMap [("name", YStr "empty")]) ∧
  run_flow ex_clock ex_runner_no_agent "empty" ex_inputs ex_start =
    Raise (KeyError "agent").
Proof. repeat split; vm_compute; reflexivity. Qed.

Lemma run_flow_no_steps_witness :
  run_flow ex_clock ex_runner "empty" ex_inputs ex_start =
  match load_task_agent_map ex_runner with
  | Ok _ =>
      Ok ({| final_answer := "";
             steps := [];
             metadata :=
               {[ "total_duration_ms" :=
                    MInt (elapsed_ms (ex_clock (ticks ex_start))
                                     (ex_clock (S (ticks ex_start)))) ]} |},
          {| world := world ex_start; ticks := S (S (ticks ex_start)) |})
  | Raise e => Raise e
  end.
Proof.
  apply (run_flow_no_steps ex_clock ex_runner "empty" ex_inputs ex_start
           [("name", YStr "empty")]).
  - vm_compute. reflexivity.
  - by left.
Defined.

(** ** Listing flows and agents: properties *)

Lemma length_append (a b : string) :
  String.length (a +:+ b) = (String.length a + String.length b)%nat.
Proof.
  induction a as [| c a IH]; [done |].
  rewrite append_cons. simpl. by rewrite IH.
Qed.

Lemma strip_prefix_app (p s rest : string) :
  strip_prefix p s = Some rest ↔ s = p +:+ rest.
Proof.
  revert s. induction p as [| a p IH]; intros s; simpl.
  - rewrite append_nil. split; congruence.
  - rewrite append_cons. destruct s as [| b s]; [done |].
    destruct (Ascii.eqb_spec a b) as [-> | Hne].
    + rewrite IH. split; congruence.
    + split; [done | congruence].
Qed.

Lemma ends_with_unfold (suffix s : string) :
  ends_with suffix s =
  String.eqb suffix s ||
  match s with
  | EmptyString => false
  | String _ s' => ends_with suffix s'
  end.
Proof. by destruct s. Qed.

Lemma ends_with_app (suffix s : string) :
  ends_with suffix s = true ↔ ∃ a, s = a +:+ suffix.
Proof.
  induction s as [| c s IH]; rewrite ends_with_unfold.
  - rewrite orb_false_r, String.eqb_eq. split.
    + intros ->. by exists "".
    + intros [[| c a] Ha]; [by rewrite append_nil in Ha |].
      by rewrite append_cons in Ha.
  - rewrite orb_true_iff, String.eqb_eq, IH. split.
    + intros [-> | [a ->]]; [by exists "" |].
      exists (String c a). by rewrite append_cons.
    + intros [[| c' a] Ha].
      * rewrite append_nil in Ha. by left.
      * rewrite append_cons in Ha. injection Ha as _ ->. right. by exists a.
Qed.

(** The files the glob picks are the flow files of the directory itself. *)
Lemma glob_flow_flow_file (name : string) :
  glob_flow name = true ↔
  contains "/" name = false ∧ ∃ flow_name, name = flow_file flow_name.
Proof.
  unfold glob_flow, flow_file.
  rewrite andb_true_iff, negb_true_iff. apply and_iff_compat_l. split.
  - destruct (strip_prefix "flow-" name) as [rest |] eqn:Hp; [| done].
    apply strip_prefix_app in Hp as ->.
    intros [a ->]%ends_with_app. by exists a.
  - intros [flow_name ->].
    assert (Hp : strip_prefix "flow-" ("flow-" +:+ flow_name +:+ ".yaml") =
                 Some (flow_name +:+ ".yaml")) by (by apply strip_prefix_app).
    rewrite Hp. apply ends_with_app. by exists flow_name.
Qed.

Lemma rfind_dot_yaml (a : string) :
  rfind_dot (a +:+ ".yaml") = Some (String.length a).
Proof.
  induction a as [| c a IH]; [done |].
  rewrite append_cons. simpl. by rewrite IH.
Qed.

Lemma substring_app (a b : string) :
  String.substring 0 (String.length a) (a +:+ b) = a.
Proof.
  induction a as [| c a IH]; [by destruct b |].
  rewrite append_cons. simpl. by rewrite IH.
Qed.

(** The stem of a flow file is its name without [".yaml"]. *)
Lemma stem_flow_file (flow_name : string) :
  stem (flow_file flow_name) = "flow-" +:+ flow_name.
Proof.
  unfold stem, flow_file.
  change ("flow-" +:+ flow_name +:+ ".yaml")
    with (("flow-" +:+ flow_name) +:+ ".yaml") at 1 2 3.
  - rewrite rfind_dot_yaml, !length_append.
    replace ((0 <? _)%nat && (_ <? _)%nat) with true.
    + rewrite <- (length_append "flow-" flow_name). apply substring_app.
    + symmetry. apply andb_true_iff. split; apply Nat.ltb_lt; simpl; lia.
Qed.

Lemma remove_from_skip (old a t : string) :
  remove_from old (String.length a) (a +:+ t) = remove_from old 0 t.
Proof.
  induction a as [| c a IH]; [by rewrite append_nil |].
  rewrite append_cons. simpl. apply IH.
Qed.

Lemma remove_from_cons (old : string) (c : Ascii.ascii) (s : string) :
  remove_from old 0 (String c s) =
  if String.prefix old (String c s)
  then remove_from old (String.length old - 1) s
  else String c (remove_from old 0 s).
Proof. reflexivity. Qed.

(** An occurrence that starts the string is removed, and the search goes on
    after it. *)
Lemma remove_all_prefix (c : Ascii.ascii) (old t : string) :
  remove_all (String c old) (String c old +:+ t) = remove_all (String c old) t.
Proof.
  unfold remove_all. rewrite append_cons, remove_from_cons.
  assert (Hp : String.prefix (String c old) (String c (old +:+ t)) = true).
  { apply prefix_app. exists t. by rewrite append_cons. }
  rewrite Hp. simpl String.length. rewrite Nat.sub_succ, Nat.sub_0_r.
  apply remove_from_skip.
Qed.

(** A string without occurrence is left as it is. *)
Lemma remove_all_absent (old t : string) :
  contains old t = false → remove_all old t = t.
Proof.
  unfold remove_all. induction t as [| c t IH]; [done |].
  rewrite contains_unfold.
  destruct (String.prefix old (String c t)) eqn:Hp; [done |].
  intros Ht. by rewrite remove_from_cons, Hp, IH.
Qed.

Lemma agent_ids_Ok (agents ids : list yaml) :
  agent_ids agents = Ok ids ↔
  Forall2 (λ a id, py_getitem a "id" = Ok id) agents ids.
Proof.
  revert ids. induction agents as [| a agents IH]; intros ids; simpl.
  - split; [intros [= <-]; constructor | intros H; by inversion H].
  - unfold mbind, result_bind.
    destruct (py_getitem a "id") as [id | e] eqn:Hid.
    + destruct (agent_ids agents) as [ids' | e'] eqn:Hids.
      * split.
        -- intros [= <-]. constructor; [done | by apply IH].
        -- intros (id' & ids'' & Hid' & Hrest & ->)%Forall2_cons_inv_l.
           apply IH in Hrest. rewrite Hid in Hid'.
           injection Hid' as <-. injection Hrest as <-. reflexivity.
      * split; [done |].
        intros (id' & ids'' & Hid' & Hrest & ->)%Forall2_cons_inv_l.
        by apply IH in Hrest.
    + split; [done |].
      intros (id' & ids'' & Hid' & Hrest & ->)%Forall2_cons_inv_l. congruence.
Qed.

Lemma agent_ids_no_id (pre : list yaml) a_entries (post ids : list yaml) :
  agent_ids pre = Ok ids →
  dict_get "id" a_entries = None →
  agent_ids (pre ++ YMap a_entries :: post) = Raise (KeyError "id").
Proof.
  intros Hpre Hid. revert ids Hpre.
  induction pre as [| a pre IH]; intros ids Hpre; simpl.
  - unfold mbind, result_bind. simpl. by rewrite Hid.
  - simpl in Hpre. unfold mbind, result_bind in *.
    destruct (py_getitem a "id") as [id | e]; [| done].
    destruct (agent_ids pre) as [ids' | e'] eqn:Hids; [| done].
    by rewrite (IH ids').
Qed.

Section ListingProperties.
Context {World : Type} {layers_path : string}.
Implicit Types (self : @FlowRunner World layers_path).

(** X1. The names [list_flows] returns are those of the flow files of the
    directory, each with every occurrence of ["flow-"] removed; other files,
    behavior.yaml among them, give no name. *)
Theorem list_flows_names self (name : string) :
  name ∈ list_flows self ↔
  ∃ flow_name, is_Some (config_dir self !! flow_file flow_name) ∧
               contains "/" (flow_file flow_name) = false ∧
               name = remove_all "flow-" flow_name.
Proof.
  unfold list_flows. rewrite list_elem_of_fmap. split.
  - intros (f & -> & Hf). apply list_elem_of_filter in Hf as [Hglob Hin].
    apply Is_true_true_1, glob_flow_flow_file in Hglob as [Hslash [flow_name ->]].
    apply list_elem_of_fmap in Hin as ([f d] & Heq & Hin). simpl in Heq. subst f.
    apply elem_of_map_to_list in Hin.
    exists flow_name. split; [eauto |]. split; [done |].
    by rewrite stem_flow_file, remove_all_prefix.
  - intros (flow_name & [d Hd] & Hslash & ->). exists (flow_file flow_name). split.
    + by rewrite stem_flow_file, remove_all_prefix.
    + apply list_elem_of_filter. split.
      * apply Is_true_true_2, glob_flow_flow_file. eauto.
      * apply list_elem_of_fmap. exists (flow_file flow_name, d). split; [done |].
        by apply elem_of_map_to_list.
Qed.

(** X2. A flow whose name holds no ["flow-"] is listed under its name as
    soon as its file is in the directory, and [load_flow] finds the file
    under that name. *)
Theorem list_flows_load_flow self (flow_name : string) flow :
  config_dir self !! flow_file flow_name = Some flow →
  contains "/" (flow_file flow_name) = false →
  contains "flow-" flow_name = false →
  flow_name ∈ list_flows self ∧
  ∀ msg, load_flow self flow_name ≠ Raise (FileNotFoundError msg).
Proof.
  intros Hfile Hslash Habsent. split.
  - apply list_flows_names. exists flow_name. split; [eauto |]. split; [done |].
    by rewrite remove_all_absent.
  - intros msg. rewrite (load_flow_present _ _ _ Hfile).
    unfold mbind, result_bind.
    destruct flow as [| | | | | entries]; simpl; try done.
    by destruct (default (YSeq []) (dict_get "steps" entries)).
Qed.

(** X3. A listed name need not load: the file flow-flow-<name>.yaml is
    listed as <name>, every ["flow-"] being removed, not the first one only;
    without a file flow-<name>.yaml, [load_flow] does not find <name>. *)
Theorem list_flows_not_loadable self (flow_name : string) flow :
  config_dir self !! flow_file ("flow-" +:+ flow_name) = Some flow →
  contains "/" (flow_file ("flow-" +:+ flow_name)) = false →
  config_dir self !! flow_file flow_name = None →
  contains "flow-" flow_name = false →
  flow_name ∈ list_flows self ∧
  load_flow self flow_name =
    Raise (FileNotFoundError ("Flow not found: " +:+ flow_name)).
Proof.
  intros Hfile Hslash Hnone Habsent. split.
  - apply list_flows_names. exists ("flow-" +:+ flow_name).
    split; [eauto |]. split; [done |].
    by rewrite remove_all_prefix, remove_all_absent.
  - rewrite (load_flow_absent _ _ Hnone).
    destruct (flow_file_key_ok _ _ _ Hfile) as (_ & Hs & Hlong).
    unfold os_refuses. rewrite (too_long_flow_file _ _ Hs Hlong).
    by rewrite andb_false_r.
Qed.

(** X4. With a behaviour description whose [agents] entry is a sequence,
    [list_agents] returns a list exactly when every agent has an [id], and
    the list holds these ids in the declared order. *)
Theorem list_agents_ids self entries (agents ids : list yaml) :
  config_dir self !! "behavior.yaml" = Some (YMap entries) →
  dict_get "agents" entries = Some (YSeq agents) →
  list_agents self = Ok ids ↔
  Forall2 (λ a id, py_getitem a "id" = Ok id) agents ids.
Proof.
  intros Hfile Hagents. unfold list_agents. rewrite load_behavior_lookup.
  rewrite Hfile. unfold mbind, result_bind. simpl. rewrite Hagents. simpl.
  apply agent_ids_Ok.
Qed.

(** X5. The first agent without [id] makes [list_agents] raise
    [KeyError("id")], and a behaviour description without [agents] entry
    has no agent. *)
Theorem list_agents_missing self entries :
  config_dir self !! "behavior.yaml" = Some (YMap entries) →
  (dict_get "agents" entries = None → list_agents self = Ok []) ∧
  (∀ pre a_entries post ids,
     dict_get "agents" entries = Some (YSeq (pre ++ YMap a_entries :: post)) →
     agent_ids pre = Ok ids →
     dict_get "id" a_entries = None →
     list_agents self = Raise (KeyError "id")).
Proof.
  intros Hfile. unfold list_agents. rewrite load_behavior_lookup.
  rewrite Hfile. unfold mbind, result_bind. simpl. split.
  - by intros ->.
  - intros pre a_entries post ids -> Hpre Hid. simpl.
    by apply (agent_ids_no_id pre a_entries post ids).
Qed.

End ListingProperties.

(** ** Loading: properties *)

Lemma task_agent_map_of_app (pre rest : list yaml) (acc : gmap string yaml) :
  task_agent_map_of (pre ++ rest) acc =
  match task_agent_map_of pre acc with
  | Ok acc' => task_agent_map_of rest acc'
  | Raise e => Raise e
  end.
Proof.
  revert acc. induction pre as [| t pre IH]; intros acc; [done |].
  simpl. unfold mbind, result_bind.
  destruct (py_getitem t "id"); [| done].
  destruct (py_getitem t "agent"); [| done].
  destruct (as_hashable a); [| done]. apply IH.
Qed.

Lemma task_agent_map_of_lookup (tasks : list yaml) (acc tam : gmap string yaml)
    (tid : string) :
  task_agent_map_of tasks acc = Ok tam →
  tam !! tid =
  match last (omap (binding_of tid) tasks) with
  | Some a => Some a
  | None => acc !! tid
  end.
Proof.
  revert acc. induction tasks as [| t tasks IH]; intros acc.
  - by intros [= <-].
  - change (omap (binding_of tid) (t :: tasks))
      with (match binding_of tid t with
            | Some a => a :: omap (binding_of tid) tasks
            | None => omap (binding_of tid) tasks
            end).
    simpl. unfold mbind, result_bind, binding_of at 1.
    destruct (py_getitem t "id") as [id | e]; [| done].
    destruct (py_getitem t "agent") as [a | e]; [| done].
    destruct (as_hashable id) as [k | e] eqn:Hk; [| done].
    intros Hrest. rewrite (IH _ Hrest).
    destruct id as [| b | z | s | items | m]; simplify_eq/=; try done.
    destruct (String.eqb_spec s tid) as [-> | Hne].
    + rewrite last_cons.
      destruct (last (omap (binding_of tid) tasks)); [done |].
      by rewrite lookup_insert_eq.
    + destruct (last (omap (binding_of tid) tasks)); [done |].
      by rewrite lookup_insert_ne.
Qed.

Section LoadingProperties.
Context {World : Type} {layers_path : string}.
Variable clock : nat → Q.
Implicit Types (self : @FlowRunner World layers_path) (st : @rt World).

(** X6. [load_flow] returns a document exactly when the flow file is there
    and holds a mapping whose [steps] entry is missing, a sequence, a
    mapping or a string; what it returns is the content of the file. *)
Theorem load_flow_Ok self (flow_name : string) flow :
  load_flow self flow_name = Ok flow ↔
  config_dir self !! flow_file flow_name = Some flow ∧ loadable flow = true.
Proof.
  destruct (config_dir self !! flow_file flow_name) as [doc |] eqn:Hfile.
  2: { rewrite (load_flow_absent _ _ Hfile).
       split; [by destruct (os_refuses _ _) | by intros [? _]]. }
  rewrite (load_flow_present _ _ _ Hfile).
  unfold loadable, mbind, result_bind. split.
  - destruct doc as [| | | | | entries]; simpl; try done.
    destruct (dict_get "steps" entries) as [[| | | | |] |] eqn:Hsteps; simpl;
      try done; intros [= <-]; by rewrite Hsteps.
  - intros [[= ->] Hok].
    destruct flow as [| | | | | entries]; try done. simpl.
    by destruct (dict_get "steps" entries) as [[| | | | |] |].
Qed.

(** X7. What [load_flow] raises tells what is wrong: [FileNotFoundError]
    for a missing file, [OSError] for a missing file whose name the
    operating system refuses as too long, [AttributeError] for a document
    that is no mapping, [TypeError] for a [steps] entry that is null, a
    boolean or a number. *)
Theorem load_flow_Raise self (flow_name : string) e :
  load_flow self flow_name = Raise e →
  match e with
  | FileNotFoundError msg =>
      msg = "Flow not found: " +:+ flow_name ∧
      config_dir self !! flow_file flow_name = None
  | OSError errno =>
      errno = ENAMETOOLONG ∧
      config_dir self !! flow_file flow_name = None ∧
      os_refuses layers_path (flow_file flow_name) = true
  | AttributeError =>
      ∃ flow, config_dir self !! flow_file flow_name = Some flow ∧
              ∀ entries, flow ≠ YMap entries
  | TypeError =>
      ∃ entries v, config_dir self !! flow_file flow_name = Some (YMap entries) ∧
                   dict_get "steps" entries = Some v ∧
                   (v = YNull ∨ (∃ b, v = YBool b) ∨ ∃ z, v = YInt z)
  | KeyError _ => False
  end.
Proof.
  destruct (config_dir self !! flow_file flow_name) as [doc |] eqn:Hfile.
  2: { rewrite (load_flow_absent _ _ Hfile).
       destruct (os_refuses _ _); by intros [= <-]. }
  rewrite (load_flow_present _ _ _ Hfile).
  unfold mbind, result_bind.
  destruct doc as [| | | | | entries]; simpl;
    try (intros [= <-]; eexists; by split).
  destruct (dict_get "steps" entries) as [[| b | z | | |] |] eqn:Hsteps; simpl;
    try done; intros [= <-]; eexists entries, _;
    (split; [done | split; [exact Hsteps | eauto]]).
Qed.

(** X8. The task → agent map binds a task to the agent of the last entry of
    the behaviour description for it, and binds no other task. *)
Theorem task_agent_map_last_binding self entries (tasks : list yaml) tam
    (tid : string) :
  config_dir self !! "behavior.yaml" = Some (YMap entries) →
  dict_get "tasks" entries = Some (YSeq tasks) →
  load_task_agent_map self = Ok tam →
  tam !! tid = last (omap (binding_of tid) tasks).
Proof.
  intros Hfile Htasks. unfold load_task_agent_map. rewrite load_behavior_lookup.
  rewrite Hfile. unfold mbind, result_bind. simpl. rewrite Htasks. simpl.
  intros Hload. rewrite (task_agent_map_of_lookup tasks ∅ tam tid Hload).
  by destruct (last (omap (binding_of tid) tasks)).
Qed.

(** X9. A task entry of the behaviour description that has an [id] and no
    [agent], the entries before it being loaded, makes every run of a flow
    that loads raise [KeyError("agent")], whether the flow uses the task or
    not. *)
Theorem run_flow_task_without_agent self (flow_name : string) inputs st flow
    entries (pre post : list yaml) t_entries id acc :
  load_flow self flow_name = Ok flow →
  config_dir self !! "behavior.yaml" = Some (YMap entries) →
  dict_get "tasks" entries = Some (YSeq (pre ++ YMap t_entries :: post)) →
  task_agent_map_of pre ∅ = Ok acc →
  dict_get "id" t_entries = Some id →
  dict_get "agent" t_entries = None →
  run_flow clock self flow_name inputs st = Raise (KeyError "agent").
Proof.
  intros Hflow Hfile Htasks Hpre Hid Hagent.
  assert (Hload : load_task_agent_map self = Raise (KeyError "agent")).
  { unfold load_task_agent_map. rewrite load_behavior_lookup.
    rewrite Hfile. unfold mbind, result_bind. simpl. rewrite Htasks. simpl.
    rewrite task_agent_map_of_app, Hpre. simpl.
    unfold mbind, result_bind. simpl. by rewrite Hid, Hagent. }
  unfold run_flow. rewrite Hflow, Hload.
  apply load_flow_Ok in Hflow as [_ Hok].
  destruct flow as [| | | | | f_entries]; try discriminate.
  reflexivity.
Qed.

End LoadingProperties.

(** ** The synthesis: properties *)

Lemma scan_final_answer_rev (rs : list StepResult) :
  scan_final_answer (rev rs) =
  output <$> last (filter (λ r, task_is r "incident_create_issue_if_needed"
                              || task_is r "cluster_summary") rs).
Proof.
  induction rs as [| r rs IH] using rev_ind; [done |].
  rewrite rev_unit, filter_app. simpl.
  destruct (task_is r "incident_create_issue_if_needed") eqn:Hi.
  - rewrite (filter_cons_True _ r) by (rewrite Hi; simpl; tauto).
    by rewrite filter_nil, last_snoc.
  - destruct (task_is r "cluster_summary") eqn:Hs.
    + rewrite (filter_cons_True _ r) by (rewrite Hi, Hs; simpl; tauto).
      by rewrite filter_nil, last_snoc.
    + rewrite (filter_cons_False _ r) by (rewrite Hi, Hs; simpl; tauto).
      by rewrite filter_nil, app_nil_r.
Qed.

Lemma extract_final_answer_last (results : list StepResult) :
  _extract_final_answer results =
  match last (filter (λ r, task_is r "incident_create_issue_if_needed"
                           || task_is r "cluster_summary") results) with
  | Some r => output r
  | None =>
      match last results with
      | Some r => output r
      | None => ""
      end
  end.
Proof.
  unfold _extract_final_answer. rewrite scan_final_answer_rev.
  by destruct (last (filter _ results)).
Qed.

(** X10. The final answer is the output of the last step whose task is the
    incident task or the summary task, whichever of the two; without such
    a step the output of the last step; without any step the empty
    string. *)
Theorem extract_final_answer_rule (results : list StepResult) :
  _extract_final_answer results =
  match last (filter (λ r, task_is r "incident_create_issue_if_needed"
                           || task_is r "cluster_summary") results) with
  | Some r => output r
  | None =>
      match last results with
      | Some r => output r
      | None => ""
      end
  end.
Proof. apply extract_final_answer_last. Qed.

(** X11. The final answer of a non-empty result sequence is the output of
    one of its steps: nothing is made up, and an empty final answer means
    an empty output. *)
Theorem extract_final_answer_is_output (results : list StepResult) :
  results ≠ [] →
  ∃ r, r ∈ results ∧ _extract_final_answer results = output r.
Proof.
  intros Hne. rewrite extract_final_answer_last.
  destruct (last (filter _ results)) as [r |] eqn:Hlast.
  - exists r. split; [| done].
    apply last_Some_elem_of, list_elem_of_filter in Hlast. tauto.
  - destruct (last results) as [r |] eqn:Hl.
    + exists r. split; [by apply last_Some_elem_of | done].
    + by apply last_None in Hl.
Qed.

Lemma substring_prefix (n : nat) (s : string) :
  String.prefix (String.substring 0 n s) s = true.
Proof.
  revert n. induction s as [| c s IH]; intros [| n]; simpl; try done.
  destruct (Ascii.ascii_dec c c); [apply IH | done].
Qed.

Lemma substring_length (n : nat) (s : string) :
  String.length (String.substring 0 n s) = (n `min` String.length s)%nat.
Proof.
  revert n. induction s as [| c s IH]; intros [| n]; simpl; try done.
  by rewrite IH.
Qed.

Lemma extract_metadata_summary (results : list StepResult) :
  _extract_metadata results !! "cluster_summary" =
  (λ r, MStr (String.substring 0 500 (output r))) <$>
    last (filter (λ r, task_is r "cluster_summary") results).
Proof.
  induction results as [| r rs IH] using rev_ind; [done |].
  rewrite extract_metadata_snoc, filter_app, filter_task_is_singleton.
  unfold metadata_step. rewrite summary_truncation.
  destruct (task_is r "cluster_summary") eqn:Hs;
    destruct (task_is r "incident_create_issue_if_needed") eqn:Hi.
  - by pose proof (task_is_inj _ _ _ Hs Hi).
  - by rewrite last_snoc, lookup_insert_eq.
  - rewrite app_nil_r.
    by destruct (contains "Created issue" (output r)); rewrite lookup_insert_ne.
  - by rewrite app_nil_r.
Qed.

(** X12. The summary kept in the metadata is a prefix of the output of a
    summary step, of 500 characters, or of the whole output when that is
    shorter. *)
Theorem extract_metadata_summary_bound (results : list StepResult) v :
  _extract_metadata results !! "cluster_summary" = Some v →
  ∃ r s, r ∈ results ∧ task_is r "cluster_summary" = true ∧ v = MStr s ∧
         String.prefix s (output r) = true ∧
         String.length s = (500 `min` String.length (output r))%nat.
Proof.
  rewrite extract_metadata_summary.
  destruct (last (filter _ results)) as [r |] eqn:Hlast; [| done].
  intros [= <-]. apply last_Some_elem_of, list_elem_of_filter in Hlast as [Hr Hin].
  exists r, (String.substring 0 500 (output r)).
  repeat split; [done | by apply Is_true_true_1 | apply substring_prefix |
                 apply substring_length].
Qed.

(** ** Runs: more properties *)

Lemma py_int_floor (q : Q) : (0 <= q)%Q → py_int q = Qfloor q.
Proof.
  destruct q as [n d]. unfold Qle, py_int. simpl. intros Hn.
  apply Z.quot_div_nonneg; lia.
Qed.

(** A measurement inside another one is no longer than it. *)
Lemma elapsed_ms_mono (a b c d : Q) :
  (a <= b)%Q → (b <= c)%Q → (c <= d)%Q → elapsed_ms b c ≤ elapsed_ms a d.
Proof.
  intros Hab Hbc Hcd. unfold elapsed_ms.
  rewrite !py_int_floor by lra. apply Qfloor_resp_le. lra.
Qed.

Lemma step_identity_task_and_output (rs rs' : list StepResult) :
  step_identity <$> rs = step_identity <$> rs' →
  task_and_output <$> rs = task_and_output <$> rs'.
Proof.
  revert rs'. induction rs as [| r rs IH]; intros [| r' rs']; try done.
  rewrite !fmap_cons. intros [= Ha Ht Ho Hrs].
  unfold task_and_output at 1 3. rewrite Ht, Ho. f_equal. by apply IH.
Qed.

Section RunProperties.
Context {World : Type} {layers_path : string}.
Variable clock : nat → Q.

Implicit Types (self : @FlowRunner World layers_path) (st : @rt World).
Implicit Types (inputs tam : gmap string yaml) (ctx : gmap string string).
Implicit Types (res : list StepResult) (step : yaml) (tid : string).

Lemma run_step_appended self inputs tam step res ctx st res' ctx' st' :
  run_step clock self inputs tam step res ctx st = Ok ((res', ctx'), st') →
  (ticks st ≤ ticks st')%nat ∧
  ∃ new, res' = res ++ new ∧ Forall (appended clock self tam (ticks st) (ticks st')) new.
Proof.
  unfold run_step, mbind, M_bind, mret, M_ret, lift, time_time, invoke.
  destruct step as [| | | | | entries]; simpl; try done.
  destruct (truthy (default YNull (dict_get "run" entries))); simpl.
  2: { intros [= <- <- <-]. split; [done |]. exists []. by rewrite app_nil_r. }
  destruct (default YNull (dict_get "run" entries)) as [| b | z | tid | items | m];
    simpl; try done;
    try (intros [= <- <- <-]; split; [done |]; eexists [_]; split; [done |];
         constructor; [| done]; split; [done | by left]).
  destruct (tasks_map self !! tid) as [method |] eqn:Hm; simpl.
  - destruct (method (merged_context inputs ctx) (world st)) as [o w'] eqn:Hcall.
    destruct o; intros [= <- <- <-]; simpl; (split; [lia |]);
      eexists [_]; (split; [done |]); (constructor; [| done]);
      (split; [unfold expected_agent; simpl; by rewrite Hm |]); right.
    + exists (ticks st), (S (S (ticks st))). simpl. repeat split; lia.
    + exists (ticks st), (S (ticks st)). simpl. repeat split; lia.
  - intros [= <- <- <-]. split; [done |]. eexists [_]. split; [done |].
    constructor; [| done]. split; [| by left].
    unfold expected_agent. simpl. by rewrite Hm.
Qed.

Lemma appended_weaken self tam (lo lo' hi hi' : nat) (r : StepResult) :
  (lo' ≤ lo)%nat → (hi ≤ hi')%nat →
  appended clock self tam lo hi r → appended clock self tam lo' hi' r.
Proof.
  intros Hlo Hhi [Ha [Hd | (i & j & ? & ? & ? & Hd)]]; split; try done; [by left |].
  right. exists i, j. repeat split; try done; lia.
Qed.

Lemma run_steps_appended self inputs tam steps_config res ctx st res' ctx' st' :
  run_steps clock self inputs tam steps_config res ctx st = Ok ((res', ctx'), st') →
  (ticks st ≤ ticks st')%nat ∧
  ∃ new, res' = res ++ new ∧ Forall (appended clock self tam (ticks st) (ticks st')) new.
Proof.
  revert res ctx st.
  induction steps_config as [| step rest IH]; intros res ctx st.
  - intros [= <- <- <-]. split; [done |]. exists []. by rewrite app_nil_r.
  - simpl. unfold mbind, M_bind.
    destruct (run_step clock self inputs tam step res ctx st)
      as [[[res1 ctx1] st1] | e] eqn:Hstep; [| done].
    apply run_step_appended in Hstep as (Ht1 & new1 & -> & Hnew1).
    intros (Ht2 & new2 & -> & Hnew2)%IH. split; [lia |].
    exists (new1 ++ new2). split; [by rewrite (assoc_L (++)) |].
    apply Forall_app. split.
    + eapply Forall_impl; [exact Hnew1 |].
      intros r. apply appended_weaken; lia.
    + eapply Forall_impl; [exact Hnew2 |].
      intros r. apply appended_weaken; lia.
Qed.

(** A run that returns went through the loop, and its report is built from
    the results of the loop. *)
Lemma run_flow_Ok_inv self (flow_name : string) inputs st (r : RunResult) st' :
  run_flow clock self flow_name inputs st = Ok (r, st') →
  ∃ flow tam steps_list ctx st1,
    load_flow self flow_name = Ok flow ∧
    load_task_agent_map self = Ok tam ∧
    run_steps clock self inputs tam steps_list [] ∅
      {| world := world st; ticks := S (ticks st) |} = Ok ((steps r, ctx), st1) ∧
    final_answer r = _extract_final_answer (steps r) ∧
    metadata r =
      <["total_duration_ms" :=
          MInt (elapsed_ms (clock (ticks st)) (clock (ticks st1)))]>
        (_extract_metadata (steps r)) ∧
    st' = {| world := world st1; ticks := S (ticks st1) |}.
Proof.
  unfold run_flow, mbind, M_bind, mret, M_ret, lift, time_time.
  destruct (load_flow self flow_name) as [flow |]; simpl; [| done].
  destruct (py_get flow "steps" (YSeq [])) as [steps_config |]; simpl; [| done].
  destruct (load_task_agent_map self) as [tam |]; simpl; [| done].
  destruct (py_iter steps_config) as [steps_list |]; simpl; [| done].
  destruct (run_steps clock self inputs tam steps_list [] ∅ _)
    as [[[res ctx] st1] |] eqn:Hsteps; simpl; [| done].
  intros [= <- <-]. by exists flow, tam, steps_list, ctx, st1.
Qed.

(** X13. In the report of a run, a step is annotated with the agent the
    behaviour description binds its task to when the registry holds the
    task, and with ["unknown"] otherwise: when the task has no binding, and
    also when it has one but the registry lacks the task. *)
Theorem run_flow_agents self (flow_name : string) inputs st (r : RunResult) st' tam :
  run_flow clock self flow_name inputs st = Ok (r, st') →
  load_task_agent_map self = Ok tam →
  Forall (λ s, agent s = expected_agent self tam (task s)) (steps r).
Proof.
  intros (flow & tam' & steps_list & ctx & st1 & _ & Htam & Hsteps & _)%run_flow_Ok_inv.
  rewrite Htam. intros [= ->].
  apply run_steps_appended in Hsteps as (_ & new & Hres & Hnew).
  simpl in Hres. rewrite Hres.
  eapply Forall_impl; [exact Hnew |]. by intros s [Ha _].
Qed.

(** X14. With a clock that never runs backwards, the metadata of a run
    holds a total duration, and the duration of every step lies between 0
    and that total. *)
Theorem run_flow_durations self (flow_name : string) inputs st (r : RunResult) st' :
  monotone clock →
  run_flow clock self flow_name inputs st = Ok (r, st') →
  ∃ total, metadata r !! "total_duration_ms" = Some (MInt total) ∧
           Forall (λ s, 0 ≤ duration_ms s ≤ total) (steps r).
Proof.
  intros Hclock
    (flow & tam & steps_list & ctx & st1 & _ & _ & Hsteps & _ & Hmeta & _)%run_flow_Ok_inv.
  exists (elapsed_ms (clock (ticks st)) (clock (ticks st1))).
  split; [by rewrite Hmeta, lookup_insert_eq |].
  apply run_steps_appended in Hsteps as (Hticks & new & Hres & Hnew).
  simpl in *. rewrite Hres.
  eapply Forall_impl; [exact Hnew |].
  intros s [_ [-> | (i & j & Hi & Hij & Hj & ->)]].
  - split; [done |]. apply elapsed_ms_nonneg, Hclock. lia.
  - split.
    + apply elapsed_ms_nonneg, Hclock. lia.
    + apply elapsed_ms_mono; apply Hclock; lia.
Qed.

(** X15. A step that is no mapping, or whose [run] entry is a non-empty
    sequence or mapping, ends the loop with an exception: the results of
    the steps before it are lost, the steps after it do not run. *)
Theorem run_steps_malformed_step self inputs tam pre step post
    res0 ctx0 st0 res1 ctx1 st1 :
  run_steps clock self inputs tam pre res0 ctx0 st0 = Ok ((res1, ctx1), st1) →
  ((∀ entries, step ≠ YMap entries) →
   run_steps clock self inputs tam (pre ++ step :: post) res0 ctx0 st0 =
     Raise AttributeError) ∧
  (∀ entries v,
     step = YMap entries →
     dict_get "run" entries = Some v →
     (∃ x items, v = YSeq (x :: items)) ∨ (∃ x m, v = YMap (x :: m)) →
     run_steps clock self inputs tam (pre ++ step :: post) res0 ctx0 st0 =
       Raise TypeError).
Proof.
  intros Hpre. split.
  - intros Hstep. rewrite run_steps_app, Hpre. simpl.
    unfold mbind, M_bind, run_step, lift.
    destruct step as [| | | | | entries]; simpl; try done.
    by destruct (Hstep entries).
  - intros entries v -> Hrun Hv. rewrite run_steps_app, Hpre. simpl.
    unfold mbind, M_bind, run_step, lift. simpl. rewrite Hrun.
    by destruct Hv as [(x & items & ->) | (x & m & ->)].
Qed.

End RunProperties.

(** ** Repeating a run *)

Section Repeat.
Context {World : Type} {layers_path : string}.
Variables clock clock' : nat → Q.

Implicit Types (self : @FlowRunner World layers_path) (st : @rt World).
Implicit Types (inputs tam : gmap string yaml) (ctx : gmap string string).
Implicit Types (res : list StepResult) (step : yaml).

Lemma run_step_world_blind self inputs tam step res res' ctx st st' :
  world_blind self →
  step_identity <$> res' = step_identity <$> res →
  match run_step clock self inputs tam step res ctx st,
        run_step clock' self inputs tam step res' ctx st' with
  | Ok ((r, c), _), Ok ((r', c'), _) =>
      step_identity <$> r' = step_identity <$> r ∧ c' = c
  | Raise e, Raise e' => e' = e
  | _, _ => False
  end.
Proof.
  intros Hblind Hres.
  unfold run_step, mbind, M_bind, mret, M_ret, lift, time_time, invoke.
  destruct (py_get step "run" YNull) as [task_id |]; simpl; [| done].
  destruct (truthy task_id); simpl; [| done].
  destruct (as_hashable task_id) as [k |]; simpl; [| done].
  unfold tasks_map_get.
  destruct k as [| b | z | tid]; simpl;
    try (split; [by rewrite !fmap_app, Hres | done]).
  destruct (tasks_map self !! tid) as [method |] eqn:Hm; simpl.
  - pose proof (Hblind tid method Hm (merged_context inputs ctx) (world st) (world st'))
      as Hsame.
    destruct (method (merged_context inputs ctx) (world st)) as [o w1].
    destruct (method (merged_context inputs ctx) (world st')) as [o' w2].
    simpl in Hsame. subst o'.
    destruct o; simpl; by rewrite !fmap_app, Hres.
  - split; [by rewrite !fmap_app, Hres | done].
Qed.

Lemma run_steps_world_blind self inputs tam steps_config res res' ctx st st' :
  world_blind self →
  step_identity <$> res' = step_identity <$> res →
  match run_steps clock self inputs tam steps_config res ctx st,
        run_steps clock' self inputs tam steps_config res' ctx st' with
  | Ok ((r, c), _), Ok ((r', c'), _) =>
      step_identity <$> r' = step_identity <$> r ∧ c' = c
  | Raise e, Raise e' => e' = e
  | _, _ => False
  end.
Proof.
  intros Hblind. revert res res' ctx st st'.
  induction steps_config as [| step rest IH]; intros res res' ctx st st' Hres.
  - done.
  - simpl. unfold mbind, M_bind.
    pose proof (run_step_world_blind self inputs tam step res res' ctx st st'
                  Hblind Hres) as Hstep.
    destruct (run_step clock self inputs tam step res ctx st)
      as [[[r c] s] | e];
      destruct (run_step clock' self inputs tam step res' ctx st')
      as [[[r' c'] s'] | e']; try done.
    destruct Hstep as (Hr & ->). by apply IH.
Qed.

(** X16. When the outcome of no task depends on the state of the world, a
    run can be repeated: from any state of the world and of the clock, two
    runs of a flow with the same inputs raise the same exception, or return
    reports with the same agents, tasks and outputs step by step, the same
    final answer and the same metadata but for the total duration. *)
Theorem run_flow_repeatable self (flow_name : string) inputs st st' :
  world_blind self →
  match run_flow clock self flow_name inputs st,
        run_flow clock' self flow_name inputs st' with
  | Ok (r, _), Ok (r', _) =>
      step_identity <$> steps r' = step_identity <$> steps r ∧
      final_answer r' = final_answer r ∧
      delete "total_duration_ms" (metadata r') =
        delete "total_duration_ms" (metadata r)
  | Raise e, Raise e' => e' = e
  | _, _ => False
  end.
Proof.
  intros Hblind.
  unfold run_flow, mbind, M_bind, mret, M_ret, lift, time_time.
  destruct (load_flow self flow_name) as [flow |]; simpl; [| done].
  destruct (py_get flow "steps" (YSeq [])) as [steps_config |]; simpl; [| done].
  destruct (load_task_agent_map self) as [tam |]; simpl; [| done].
  destruct (py_iter steps_config) as [steps_list |]; simpl; [| done].
  pose proof (run_steps_world_blind self inputs tam steps_list [] [] ∅
                {| world := world st; ticks := S (ticks st) |}
                {| world := world st'; ticks := S (ticks st') |} Hblind eq_refl)
    as Hsteps.
  destruct (run_steps clock self inputs tam steps_list [] ∅ _) as [[[r c] s] | e];
    destruct (run_steps clock' self inputs tam steps_list [] ∅ _)
    as [[[r' c'] s'] | e']; try done.
  destruct Hsteps as (Hr & _). simpl.
  apply step_identity_task_and_output in Hr as Hto.
  repeat split; try done.
  - by apply extract_final_answer_ext.
  - rewrite !delete_insert_eq. f_equal. by apply extract_metadata_ext.
Qed.

End Repeat.

(** ** The HTTP endpoint: properties *)

Lemma validate_steps_strings (results : list StepResult) :
  Forall (λ s, ∃ a t, agent s = YStr a ∧ task s = YStr t) results →
  ∃ response_steps,
    mapM Api.validate_step results = Some response_steps ∧
    Forall2 (λ s a, agent s = YStr (Api.api_agent a) ∧
                    task s = YStr (Api.api_task a) ∧
                    output s = Api.api_output a ∧
                    duration_ms s = Api.api_duration_ms a)
      results response_steps.
Proof.
  induction 1 as [| s results (a & t & Ha & Ht) _ (steps' & Hsteps & Hall)].
  - exists []. by split.
  - assert (Hs : Api.validate_step s =
                 Some {| Api.api_agent := a;
                         Api.api_task := t;
                         Api.api_output := output s;
                         Api.api_duration_ms := duration_ms s |}).
    { unfold Api.validate_step. by rewrite Ha, Ht. }
    eexists (_ :: steps'). split.
    + simpl. by rewrite Hs, Hsteps.
    + by constructor.
Qed.

Lemma valid_step_task_id (step : yaml) :
  valid_step step = true →
  step_task_id step = YNull ∨ ∃ t, step_task_id step = YStr t.
Proof.
  destruct step as [| | | | | entries]; try done. unfold step_task_id. simpl.
  destruct (dict_get "run" entries) as [[| | | t | |] |]; try done; eauto.
Qed.

Section EndpointProperties.
Context {World : Type} {layers_path : string}.
Variable clock : nat → Q.

Implicit Types (self : @FlowRunner World layers_path) (st : @rt World).

(** X17. What a task receives for a key through the endpoint: the output of
    an earlier step of that name, else the entry of the request's context,
    else the request's namespace or application name, ["chat-api"] when the
    request names none. *)
Theorem api_task_context (request : Api.RunRequest) (ctx : gmap string string)
    (k : string) :
  merged_context (Api.request_inputs request) ctx !! k =
  match ctx !! k with
  | Some out => Some (YStr out)
  | None =>
      match default ∅ (Api.context request) !! k with
      | Some v => Some v
      | None =>
          if decide (k = "namespace") then Some (YStr (Api.namespace request))
          else if decide (k = "app_name")
               then Some (YStr (match Api.app_name request with
                                | Some "" | None => "chat-api"
                                | Some name => name
                                end))
               else None
      end
  end.
Proof.
  rewrite merged_context_lookup. destruct (ctx !! k); [done |].
  unfold Api.request_inputs. rewrite lookup_union.
  destruct (default ∅ (Api.context request) !! k) as [v |].
  { by destruct (_ !! k). }
  rewrite (left_id_L None _).
  destruct (decide (k = "namespace")) as [-> | Hns].
  { by rewrite lookup_insert_eq. }
  rewrite lookup_insert_ne by done.
  destruct (decide (k = "app_name")) as [-> | Happ].
  - rewrite lookup_singleton_eq. unfold Api.app_name_or_default.
    destruct (Api.app_name request) as [name |]; [| done].
    by destruct name.
  - by rewrite lookup_singleton_ne.
Qed.

(** X18. For a flow without file the endpoint raises the HTTP error 404
    with the detail ["Flow not found: <flow_name>"] when the operating
    system accepts the name of the file, and the HTTP error 500 with the
    text of the [OSError] when it refuses the name as too long. *)
Theorem api_unknown_flow self (flow_name : string) request st :
  config_dir self !! flow_file flow_name = None →
  Api.run_flow_endpoint clock self flow_name request st =
  if os_refuses layers_path (flow_file flow_name)
  then inr {| Api.status_code := 500;
              Api.http_detail := Api.StrOf (Api.FromRunner (OSError ENAMETOOLONG)) |}
  else inr {| Api.status_code := 404;
              Api.http_detail := Api.Text ("Flow not found: " +:+ flow_name) |}.
Proof.
  intros Hfile. unfold Api.run_flow_endpoint.
  rewrite (run_flow_absent clock self flow_name _ st Hfile).
  by destruct (os_refuses _ _).
Qed.

(** X19. Without behavior.yaml the endpoint answers 404 and
    ["Flow not found: <flow_name>"] for a flow that is there and loads: the
    missing file of the behaviour description is taken for a missing
    flow. *)
Theorem api_missing_behavior self (flow_name : string) request st flow :
  load_flow self flow_name = Ok flow →
  config_dir self !! "behavior.yaml" = None →
  Api.run_flow_endpoint clock self flow_name request st =
  inr {| Api.status_code := 404;
         Api.http_detail := Api.Text ("Flow not found: " +:+ flow_name) |}.
Proof.
  intros Hflow Hfile. unfold Api.run_flow_endpoint, run_flow.
  rewrite Hflow. unfold load_task_agent_map. rewrite load_behavior_lookup, Hfile.
  apply load_flow_Ok in Hflow as [_ Hok].
  by destruct flow as [| | | | | entries].
Qed.

(** X20. For a valid flow, and a behaviour description that loads and binds
    tasks to strings, the endpoint returns a response, whatever the tasks
    do: the final answer and the metadata of the run, and its steps, field
    by field. *)
Theorem api_valid_flow_responds self (flow_name : string) request st flow tam :
  config_dir self !! flow_file flow_name = Some flow →
  valid_flow flow = true →
  load_task_agent_map self = Ok tam →
  (∀ tid a, tam !! tid = Some a → ∃ s, a = YStr s) →
  ∃ r st' response_steps,
    run_flow clock self flow_name (Api.request_inputs request) st = Ok (r, st') ∧
    Api.run_flow_endpoint clock self flow_name request st =
      inl {| Api.response_final_answer := final_answer r;
             Api.response_steps := response_steps;
             Api.response_metadata := metadata r |} ∧
    Forall2 (λ s a, agent s = YStr (Api.api_agent a) ∧
                    task s = YStr (Api.api_task a) ∧
                    output s = Api.api_output a ∧
                    duration_ms s = Api.api_duration_ms a)
      (steps r) response_steps.
Proof.
  intros Hfile Hvalid Htam Hstr.
  destruct (run_flow_valid clock self flow_name (Api.request_inputs request) st
              flow tam Hfile Hvalid Htam) as (r & st' & Hrun & Htasks).
  assert (Hagents : Forall (λ s, agent s = expected_agent self tam (task s)) (steps r)).
  { apply run_flow_Ok_inv in Hrun
      as (flow' & tam' & steps_list & ctx & st1 & _ & Htam' & Hsteps & _).
    rewrite Htam in Htam'. injection Htam' as <-.
    apply run_steps_appended in Hsteps as (_ & new & Hres & Hnew).
    simpl in Hres. rewrite Hres.
    eapply Forall_impl; [exact Hnew |]. by intros s [Ha _]. }
  assert (Htask : Forall (λ s, ∃ t, task s = YStr t) (steps r)).
  { cut (Forall (λ v, ∃ t, v = YStr t) (task <$> steps r));
      [by rewrite Forall_fmap |].
    rewrite Htasks. apply Forall_forall.
    intros v [Hv Hin]%list_elem_of_filter.
    apply list_elem_of_fmap in Hin as (step & -> & Hin).
    assert (Hstep : valid_step step = true).
    { destruct flow as [| | | | | entries]; try discriminate.
      unfold flow_steps in Hin. simpl in *.
      destruct (dict_get "steps" entries) as [[| | | | items |] |];
        try discriminate; try by apply elem_of_nil in Hin.
      rewrite forallb_forall in Hvalid. by apply Hvalid, list_elem_of_In. }
    apply valid_step_task_id in Hstep as [Hnull | [t Ht]]; [| eauto].
    by rewrite Hnull in Hv. }
  destruct (validate_steps_strings (steps r)) as (response_steps & Hmap & Hall).
  { apply Forall_forall. intros s Hs.
    rewrite Forall_forall in Hagents, Htask.
    destruct (Htask s Hs) as [t Ht]. rewrite (Hagents s Hs), Ht.
    unfold expected_agent.
    destruct (tasks_map self !! t); [| by eauto].
    destruct (tam !! t) as [a |] eqn:Ha; [| by eauto].
    destruct (Hstr t a Ha) as [a' ->]. simpl. eauto. }
  exists r, st', response_steps. split; [done |]. split; [| done].
  unfold Api.run_flow_endpoint. by rewrite Hrun, Hmap.
Qed.

End EndpointProperties.

(** ** Tracing and logging: properties *)

(** X21. The endpoint handed to the span exporter ends with ["/v1/traces"],
    and computing it again from itself changes nothing. *)
Theorem traces_endpoint_normal (otlp_endpoint : string) :
  ends_with "/v1/traces" (Tracing.traces_endpoint otlp_endpoint) = true ∧
  Tracing.traces_endpoint (Tracing.traces_endpoint otlp_endpoint) =
    Tracing.traces_endpoint otlp_endpoint.
Proof.
  assert (Hends : ends_with "/v1/traces" (Tracing.traces_endpoint otlp_endpoint) = true).
  { unfold Tracing.traces_endpoint.
    destruct (ends_with "/v1/traces" otlp_endpoint) eqn:He; simpl; [done |].
    apply ends_with_app. by exists otlp_endpoint. }
  split; [done |].
  unfold Tracing.traces_endpoint at 1. by rewrite Hends.
Qed.

(** X22. An attribute set by [set_request_context] shows in every later log
    event with the value of the latest call that set it, whatever the
    arguments of the event and the trace identifiers; no call removes
    it. *)
Theorem request_context_persists (format_032x format_016x : N → string)
    (calls : list (gmap string yaml)) (log_context : gmap string yaml)
    (k : string) (v : yaml) :
  last (omap (λ kwargs : gmap string yaml, kwargs !! k) calls) = Some v →
  ∀ span event_dict,
    Logger._add_trace_context format_032x format_016x span
      (foldl (λ lc kwargs, Logger.set_request_context kwargs lc) log_context calls)
      event_dict !! k = Some v.
Proof.
  intros Hlast span event_dict.
  assert (Hstore : foldl (λ lc kwargs, Logger.set_request_context kwargs lc)
                     log_context calls !! k = Some v).
  { revert v Hlast. induction calls as [| kwargs calls IH] using rev_ind;
      intros v Hlast; [done |].
    rewrite foldl_app. simpl. unfold Logger.set_request_context at 1.
    rewrite omap_app in Hlast. simpl in Hlast. rewrite lookup_union.
    destruct (kwargs !! k) as [v' |] eqn:Hk; simpl in Hlast.
    - rewrite last_snoc in Hlast. injection Hlast as <-.
      by destruct (foldl _ log_context calls !! k).
    - rewrite app_nil_r in Hlast. by rewrite (IH v Hlast). }
  unfold Logger._add_trace_context. rewrite lookup_union, Hstore.
  match goal with |- Some v ∪ ?x = _ => by destruct x end.
Qed.

(** ** Steps and step lists of other kinds *)

Section OtherKinds.
Context {World : Type} {layers_path : string}.
Variable clock : nat → Q.

Implicit Types (self : @FlowRunner World layers_path) (st : @rt World).
Implicit Types (inputs tam : gmap string yaml) (ctx : gmap string string).

(** X23. A step whose [run] entry is a number other than 0, or [true], is
    reported as a task that is not found, the number or [True] standing in
    the message for the name, and the entry itself standing as the task of
    the StepResult; the context is left as it was and the loop goes on. *)
Theorem run_steps_scalar_task_id self inputs tam pre step post v
    res0 ctx0 st0 res1 ctx1 st1 :
  run_steps clock self inputs tam pre res0 ctx0 st0 = Ok ((res1, ctx1), st1) →
  py_get step "run" YNull = Ok v →
  (∃ z, v = YInt z ∧ z ≠ 0) ∨ v = YBool true →
  run_steps clock self inputs tam (pre ++ step :: post) res0 ctx0 st0 =
  run_steps clock self inputs tam post
    (res1 ++ [ {| agent := YStr "unknown";
                  task := v;
                  output := "ERROR: task '" +:+
                            match v with
                            | YInt z => pretty z
                            | _ => "True"
                            end +:+ "' not found";
                  duration_ms := 0 |} ])
    ctx1 st1.
Proof.
  intros Hpre Hrun Hv. rewrite run_steps_app, Hpre. simpl.
  unfold run_step. unfold mbind, M_bind, lift, mret, M_ret. rewrite Hrun.
  destruct Hv as [(z & -> & Hz) | ->]; [| reflexivity].
  cbv beta iota. unfold truthy. apply Z.eqb_neq in Hz. rewrite Hz. reflexivity.
Qed.

(** X24. A [steps] entry that is a string or a mapping is taken for a list
    of steps: empty, the run returns a report without steps; otherwise the
    run raises [AttributeError] at its first character or key. *)
Theorem run_flow_steps_not_a_sequence self (flow_name : string) inputs st
    entries v tam :
  config_dir self !! flow_file flow_name = Some (YMap entries) →
  dict_get "steps" entries = Some v →
  (∃ s, v = YStr s) ∨ (∃ m, v = YMap m) →
  load_task_agent_map self = Ok tam →
  run_flow clock self flow_name inputs st =
  if truthy v then Raise AttributeError
  else Ok ({| final_answer := "";
              steps := [];
              metadata :=
                {[ "total_duration_ms" :=
                     MInt (elapsed_ms (clock (ticks st)) (clock (S (ticks st)))) ]} |},
           {| world := world st; ticks := S (S (ticks st)) |}).
Proof.
  intros Hfile Hsteps Hv Htam. unfold run_flow.
  rewrite (load_flow_present _ _ _ Hfile), Htam.
  unfold mbind, M_bind, result_bind, lift, mret, M_ret, result_ret, time_time.
  simpl. rewrite Hsteps. simpl.
  destruct Hv as [[s ->] | [m ->]].
  - destruct s; simpl; rewrite Hsteps; reflexivity.
  - destruct m as [| [k x] m]; simpl; rewrite Hsteps; reflexivity.
Qed.

End OtherKinds.

(** ** The further properties on the concrete crew *)

Lemma list_flows_load_flow_witness :
  "k8s-healthcheck" ∈ list_flows ex_runner ∧
  ∀ msg, load_flow ex_runner "k8s-healthcheck" ≠ Raise (FileNotFoundError msg).
Proof.
  apply (list_flows_load_flow ex_runner "k8s-healthcheck"
           (YMap [("steps", YSeq ex_healthcheck_steps)])).
  - vm_compute. reflexivity.
  - reflexivity.
  - reflexivity.
Defined.

Lemma list_flows_not_loadable_witness :
  "nightly" ∈ list_flows ex_runner_nightly ∧
  load_flow ex_runner_nightly "nightly" =
    Raise (FileNotFoundError ("Flow not found: " +:+ "nightly")).
Proof.
  apply (list_flows_not_loadable ex_runner_nightly "nightly" (YMap [])).
  - vm_compute. reflexivity.
  - reflexivity.
  - vm_compute. reflexivity.
  - reflexivity.
Defined.

Lemma list_agents_ids_witness :
  list_agents ex_runner_roster = Ok [YStr "k8s_operator"; YStr "reporting_analyst"] ↔
  Forall2 (λ a id, py_getitem a "id" = Ok id)
    [YMap [("id", YStr "k8s_operator"); ("role", YStr "operator")];
     YMap [("id", YStr "reporting_analyst")]]
    [YStr "k8s_operator"; YStr "reporting_analyst"].
Proof.
  apply (list_agents_ids ex_runner_roster
           [("agents",
             YSeq [YMap [("id", YStr "k8s_operator"); ("role", YStr "operator")];
                   YMap [("id", YStr "reporting_analyst")]]);
            ("tasks",
             YSeq [YMap [("id", YStr "k8s_pods_overview");
                         ("agent", YStr "k8s_operator")];
                   YMap [("id", YStr "k8s_pods_overview");
                         ("agent", YStr "infra_architect")]])]).
  - vm_compute. reflexivity.
  - reflexivity.
Defined.

Lemma list_agents_missing_witness :
  list_agents ex_runner_no_agent = Raise (KeyError "id").
Proof.
  apply (proj2 (list_agents_missing ex_runner_no_agent
                  [("agents", YSeq [YMap [("id", YStr "k8s_operator")];
                                    YMap [("role", YStr "x")]]);
                   ("tasks",
                    YSeq [YMap [("id", YStr "k8s_pods_overview");
                                ("agent", YStr "k8s_operator")];
                          YMap [("id", YStr "explain_pods")]])]
                  ltac:(vm_compute; reflexivity))
           [YMap [("id", YStr "k8s_operator")]] [("role", YStr "x")] []
           [YStr "k8s_operator"]).
  - reflexivity.
  - reflexivity.
  - reflexivity.
Defined.

Lemma load_flow_Raise_witness :
  "Flow not found: no-such-flow" = "Flow not found: " +:+ "no-such-flow" ∧
  config_dir ex_runner !! flow_file "no-such-flow" = None.
Proof.
  apply (load_flow_Raise ex_runner "no-such-flow"
           (FileNotFoundError "Flow not found: no-such-flow")).
  vm_compute. reflexivity.
Defined.

Lemma task_agent_map_last_binding_witness :
  ({[ "k8s_pods_overview" := YStr "infra_architect" ]} : gmap string yaml)
    !! "k8s_pods_overview" =
  last (omap (binding_of "k8s_pods_overview")
          [YMap [("id", YStr "k8s_pods_overview"); ("agent", YStr "k8s_operator")];
           YMap [("id", YStr "k8s_pods_overview"); ("agent", YStr "infra_architect")]]).
Proof.
  apply (task_agent_map_last_binding ex_runner_roster
           [("agents",
             YSeq [YMap [("id", YStr "k8s_operator"); ("role", YStr "operator")];
                   YMap [("id", YStr "reporting_analyst")]]);
            ("tasks",
             YSeq [YMap [("id", YStr "k8s_pods_overview");
                         ("agent", YStr "k8s_operator")];
                   YMap [("id", YStr "k8s_pods_overview");
                         ("agent", YStr "infra_architect")]])]).
  - vm_compute. reflexivity.
  - reflexivity.
  - vm_compute. reflexivity.
Defined.

Lemma run_flow_task_without_agent_witness :
  run_flow ex_clock ex_runner_no_agent "empty" ex_inputs ex_start =
  Raise (KeyError "agent").
Proof.
  apply (run_flow_task_without_agent ex_clock ex_runner_no_agent "empty" ex_inputs
           ex_start (YMap [("name", YStr "empty")])
           [("agents", YSeq [YMap [("id", YStr "k8s_operator")];
                             YMap [("role", YStr "x")]]);
            ("tasks",
             YSeq [YMap [("id", YStr "k8s_pods_overview");
                         ("agent", YStr "k8s_operator")];
                   YMap [("id", YStr "explain_pods")]])]
           [YMap [("id", YStr "k8s_pods_overview"); ("agent", YStr "k8s_operator")]]
           [] [("id", YStr "explain_pods")] (YStr "explain_pods")
           {[ "k8s_pods_overview" := YStr "k8s_operator" ]}).
  - vm_compute. reflexivity.
  - vm_compute. reflexivity.
  - reflexivity.
  - vm_compute. reflexivity.
  - reflexivity.
  - reflexivity.
Defined.

Lemma extract_final_answer_is_output_witness :
  ∃ r, r ∈ [ex_result "k8s_pods_overview" "pods output";
            ex_result "cluster_summary" "cluster summary here"] ∧
       _extract_final_answer
         [ex_result "k8s_pods_overview" "pods output";
          ex_result "cluster_summary" "cluster summary here"] = output r.
Proof.
  apply (extract_final_answer_is_output
           [ex_result "k8s_pods_overview" "pods output";
            ex_result "cluster_summary" "cluster summary here"]).
  discriminate.
Defined.

Lemma extract_metadata_summary_bound_witness :
  ∃ r s, r ∈ [ex_result "cluster_summary" "All pods healthy"] ∧
         task_is r "cluster_summary" = true ∧ MStr "All pods healthy" = MStr s ∧
         String.prefix s (output r) = true ∧
         String.length s = (500 `min` String.length (output r))%nat.
Proof.
  apply (extract_metadata_summary_bound
           [ex_result "cluster_summary" "All pods healthy"] (MStr "All pods healthy")).
  vm_compute. reflexivity.
Defined.

Lemma run_flow_agents_witness :
  Forall (λ s, agent s = expected_agent ex_runner ex_task_agent_map (task s))
    (steps ex_healthcheck_report).
Proof.
  apply (run_flow_agents ex_clock ex_runner "k8s-healthcheck" ∅ ex_start
           ex_healthcheck_report ex_healthcheck_end ex_task_agent_map).
  - vm_compute. reflexivity.
  - vm_compute. reflexivity.
Defined.

Lemma run_flow_durations_witness :
  ∃ total, metadata ex_healthcheck_report !! "total_duration_ms" = Some (MInt total) ∧
           Forall (λ s, 0 ≤ duration_ms s ≤ total) (steps ex_healthcheck_report).
Proof.
  apply (run_flow_durations ex_clock ex_runner "k8s-healthcheck" ∅ ex_start
           ex_healthcheck_report ex_healthcheck_end).
  - intros i j Hij. unfold ex_clock, Qle. simpl. lia.
  - vm_compute. reflexivity.
Defined.

Lemma run_steps_malformed_step_witness :
  run_steps ex_clock ex_runner ex_inputs ex_task_agent_map
    ([ex_step "k8s_pods_overview"] ++
     YStr "explain_pods" :: [ex_step "cluster_summary"]) [] ∅ ex_start =
  Raise AttributeError.
Proof.
  refine (proj1 (run_steps_malformed_step ex_clock ex_runner ex_inputs
                   ex_task_agent_map [ex_step "k8s_pods_overview"] (YStr "explain_pods")
                   [ex_step "cluster_summary"] [] ∅ ex_start
                   [ex_pods_result] ex_pods_context ex_after_pods _) _).
  - vm_compute. reflexivity.
  - discriminate.
Defined.

Lemma run_flow_repeatable_witness :
  match run_flow ex_clock ex_runner_blind "k8s-healthcheck" ex_inputs ex_start,
        run_flow ex_clock' ex_runner_blind "k8s-healthcheck" ex_inputs ex_later with
  | Ok (r, _), Ok (r', _) =>
      step_identity <$> steps r' = step_identity <$> steps r ∧
      final_answer r' = final_answer r ∧
      delete "total_duration_ms" (metadata r') =
        delete "total_duration_ms" (metadata r)
  | Raise e, Raise e' => e' = e
  | _, _ => False
  end.
Proof.
  apply (run_flow_repeatable ex_clock ex_clock' ex_runner_blind "k8s-healthcheck"
           ex_inputs ex_start ex_later).
  intros tid method Hm kwargs w w'.
  apply elem_of_list_to_map_2 in Hm.
  repeat (apply elem_of_cons in Hm as [Hm | Hm];
          [injection Hm as -> ->; reflexivity |]).
  by apply elem_of_nil in Hm.
Defined.

Lemma api_unknown_flow_witness :
  Api.run_flow_endpoint ex_clock ex_runner "nonexistent-flow" ex_request ex_start =
    inr {| Api.status_code := 404;
           Api.http_detail := Api.Text ("Flow not found: " +:+ "nonexistent-flow") |} ∧
  Api.run_flow_endpoint ex_clock ex_runner ex_long_name ex_request ex_start =
    inr {| Api.status_code := 500;
           Api.http_detail := Api.StrOf (Api.FromRunner (OSError ENAMETOOLONG)) |}.
Proof.
  split.
  - refine (api_unknown_flow ex_clock ex_runner "nonexistent-flow" ex_request
              ex_start _).
    vm_compute. reflexivity.
  - refine (api_unknown_flow ex_clock ex_runner ex_long_name ex_request ex_start _).
    vm_compute. reflexivity.
Defined.

Lemma api_missing_behavior_witness :
  Api.run_flow_endpoint ex_clock ex_runner_no_behavior "k8s-healthcheck" ex_request
    ex_start =
  inr {| Api.status_code := 404;
         Api.http_detail := Api.Text ("Flow not found: " +:+ "k8s-healthcheck") |}.
Proof.
  apply (api_missing_behavior ex_clock ex_runner_no_behavior "k8s-healthcheck"
           ex_request ex_start (YMap [("steps", YSeq ex_healthcheck_steps)])).
  - vm_compute. reflexivity.
  - vm_compute. reflexivity.
Defined.

Lemma api_valid_flow_responds_witness :
  ∃ r st' response_steps,
    run_flow ex_clock ex_runner "k8s-healthcheck" (Api.request_inputs ex_request)
      ex_start = Ok (r, st') ∧
    Api.run_flow_endpoint ex_clock ex_runner "k8s-healthcheck" ex_request ex_start =
      inl {| Api.response_final_answer := final_answer r;
             Api.response_steps := response_steps;
             Api.response_metadata := metadata r |} ∧
    Forall2 (λ s a, agent s = YStr (Api.api_agent a) ∧
                    task s = YStr (Api.api_task a) ∧
                    output s = Api.api_output a ∧
                    duration_ms s = Api.api_duration_ms a)
      (steps r) response_steps.
Proof.
  apply (api_valid_flow_responds ex_clock ex_runner "k8s-healthcheck" ex_request
           ex_start (YMap [("steps", YSeq ex_healthcheck_steps)]) ex_task_agent_map).
  - vm_compute. reflexivity.
  - reflexivity.
  - vm_compute. reflexivity.
  - intros tid a Ha. apply elem_of_map_to_list in Ha.
    vm_compute in Ha.
    repeat (apply elem_of_cons in Ha as [Ha | Ha];
            [injection Ha as _ ->; eauto |]).
    by apply elem_of_nil in Ha.
Defined.

Lemma request_context_persists_witness :
  Logger._add_trace_context (λ n, pretty n) (λ n, pretty n)
    (Some {| Logger.trace_id := 10; Logger.span_id := 11 |})
    (foldl (λ lc kwargs, Logger.set_request_context kwargs lc) ∅ ex_context_calls)
    {[ "user" := YStr "carol"; "event" := YStr "flow_start" ]} !! "user" =
  Some (YStr "bob").
Proof.
  apply (request_context_persists (λ n, pretty n) (λ n, pretty n) ex_context_calls ∅
           "user" (YStr "bob")).
  vm_compute. reflexivity.
Defined.

Lemma run_steps_scalar_task_id_witness :
  run_steps ex_clock ex_runner ex_inputs ex_task_agent_map
    ([ex_step "k8s_pods_overview"] ++
     YMap [("run", YInt 5)] :: [ex_step "cluster_summary"]) [] ∅ ex_start =
  run_steps ex_clock ex_runner ex_inputs ex_task_agent_map
    [ex_step "cluster_summary"]
    ([ex_pods_result] ++
     [ {| agent := YStr "unknown";
          task := YInt 5;
          output := "ERROR: task '" +:+ pretty 5 +:+ "' not found";
          duration_ms := 0 |} ])
    ex_pods_context ex_after_pods.
Proof.
  apply (run_steps_scalar_task_id ex_clock ex_runner ex_inputs ex_task_agent_map
           [ex_step "k8s_pods_overview"] (YMap [("run", YInt 5)])
           [ex_step "cluster_summary"] (YInt 5) [] ∅ ex_start
           [ex_pods_result] ex_pods_context ex_after_pods).
  - vm_compute. reflexivity.
  - reflexivity.
  - left. exists 5. split; [reflexivity | discriminate].
Defined.

Lemma run_flow_steps_not_a_sequence_witness :
  run_flow ex_clock ex_runner_text_steps "text" ex_inputs ex_start =
  if truthy (YStr "k8s_pods_overview") then Raise AttributeError
  else Ok ({| final_answer := "";
              steps := [];
              metadata :=
                {[ "total_duration_ms" :=
                     MInt (elapsed_ms (ex_clock (ticks ex_start))
                                      (ex_clock (S (ticks ex_start)))) ]} |},
           {| world := world ex_start; ticks := S (S (ticks ex_start)) |}).
Proof.
  apply (run_flow_steps_not_a_sequence ex_clock ex_runner_text_steps "text" ex_inputs
           ex_start [("steps", YStr "k8s_pods_overview")] (YStr "k8s_pods_overview")
           ex_task_agent_map).
  - vm_compute. reflexivity.
  - reflexivity.
  - left. by exists "k8s_pods_overview".
  - vm_compute. reflexivity.
Defined.
